(** * Hangman backend: a shallow embedding of [backend/utils.py] and
    [backend/app.py], and the properties of the game engine.

    Conventions of the embedding.
    - A Python [str] is a [string]; one [ascii] stands for one code point, so
      the text handled here ranges over U+0000..U+00FF.  On that range
      [str.isspace], [str.isalpha] and [str.lower] are the tables below.
    - A Python [int] is a [Z]; [len] is [String.length] or [length].
    - [set[str]] is [gset string]; [dict[str, V]] is [gmap string V].
    - The module-level dictionary [games] is threaded explicitly; a
      [GameState] object is reachable through one key only, so writing one
      of its attributes is writing the entry of that key.
    - Exceptions are values of [exn]; the routes live in a state-and-error
      monad over the registry. *)

From Stdlib Require Import ZArith Ascii.
From stdpp Require Import base option list sorting strings gmap fin_maps.

Local Open Scope Z_scope.

(** ** Characters and the [str] methods the program calls *)

Module Py.

Definition ord (c : ascii) : N := N_of_ascii c.

Definition between (lo hi n : N) : bool := ((lo <=? n) && (n <=? hi))%N.

(** [str.isspace] on one code point below U+0100. *)
Definition chr_isspace (c : ascii) : bool :=
  let n := ord c in
  between 9 13 n || between 28 32 n || (n =? 133)%N || (n =? 160)%N.

(** [str.isalpha] on one code point below U+0100: categories L*. *)
Definition chr_isalpha (c : ascii) : bool :=
  let n := ord c in
  between 65 90 n || between 97 122 n
  || (n =? 170)%N || (n =? 181)%N || (n =? 186)%N
  || between 192 214 n || between 216 246 n || between 248 255 n.

(** The code points that have a different lowercase form. *)
Definition chr_isupper (c : ascii) : bool :=
  let n := ord c in
  between 65 90 n || between 192 214 n || between 216 222 n.

Definition chr_lower (c : ascii) : ascii :=
  if chr_isupper c then ascii_of_N (ord c + 32) else c.

Fixpoint chars (s : string) : list ascii :=
  match s with
  | EmptyString => []
  | String c s' => c :: chars s'
  end.

(** The one-character string [c]. *)
Definition str1 (c : ascii) : string := String c EmptyString.

Fixpoint lower (s : string) : string :=
  match s with
  | EmptyString => EmptyString
  | String c s' => String (chr_lower c) (lower s')
  end.

Fixpoint lstrip (s : string) : string :=
  match s with
  | EmptyString => EmptyString
  | String c s' => if chr_isspace c then lstrip s' else s
  end.

Fixpoint rstrip (s : string) : string :=
  match s with
  | EmptyString => EmptyString
  | String c s' =>
      match rstrip s' with
      | EmptyString => if chr_isspace c then EmptyString else str1 c
      | r => String c r
      end
  end.

Definition strip (s : string) : string := rstrip (lstrip s).

Fixpoint all_chars (p : ascii → bool) (s : string) : bool :=
  match s with
  | EmptyString => true
  | String c s' => p c && all_chars p s'
  end.

(** [s.isalpha()]: at least one character, and all of them letters. *)
Definition isalpha (s : string) : bool :=
  match s with
  | EmptyString => false
  | _ => all_chars chr_isalpha s
  end.

(** [len(s)] as a Python integer. *)
Definition len (s : string) : Z := Z.of_nat (String.length s).

(** [sub in s] on strings: the substring test. *)
Fixpoint contains (sub s : string) : bool :=
  String.prefix sub s
  || match s with
     | EmptyString => false
     | String _ s' => contains sub s'
     end.

(** [sep.join(pieces)]. *)
Definition join (sep : string) (pieces : list string) : string :=
  String.concat sep pieces.

(** [set(s)]: the set of the one-character strings of [s]. *)
Definition set_of_str (s : string) : gset string :=
  list_to_set (str1 <$> chars s).

(** [sorted(xs)] on strings: ascending in the code-point order. *)
Definition sorted (xs : list string) : list string :=
  merge_sort String.le xs.

(** Truthiness of a [str]: non-empty. *)
Definition truthy (s : string) : bool :=
  match s with EmptyString => false | _ => true end.

(** [s.replace(old, new)] for a pattern [old] of one character. *)
Fixpoint replace (old : ascii) (new : string) (s : string) : string :=
  match s with
  | EmptyString => EmptyString
  | String c s' =>
      String.app (if decide (c = old) then new else str1 c) (replace old new s')
  end.

End Py.

(** ** Exceptions *)

Inductive exn : Type :=
  | HTTPException (status_code : Z) (detail : string)
  | ValueError
  | FileNotFoundError
  | AssertionError
  | KeyError.

(** ** utils.py *)

Module GameStatus.
Record t : Type := mk {
  masked : string;
  wrong : list string;
  lives : Z;
  won : bool;
  lost : bool
}.
End GameStatus.

Record Cfg : Type := mkCfg {
  min_len : Z;
  max_len : Z;
  cfg_lives : Z;
  file : string
}.

Definition DIFFICULTY : gmap string Cfg :=
  <["hard" := mkCfg 7 99 5 "words_hard.txt"]>
  (<["normal" := mkCfg 6 8 7 "words_normal.txt"]>
  (<["easy" := mkCfg 5 6 10 "words_easy.txt"]> ∅)).

(** The directory of [utils.py]: file name to the lines that iterating the
    open text file yields (each with its line terminator). *)
Definition FileSystem : Type := gmap string (list string).

(** One iteration of the loop of [load_words]; the state is [(seen, words)]. *)
Definition load_words_step (cfg : Cfg)
    (acc : gset string * list string) (line : string)
    : gset string * list string :=
  let '(seen, words) := acc in
  let w := Py.lower (Py.strip line) in
  if negb (Py.truthy w) || negb (Py.isalpha w) then acc
  else if negb ((min_len cfg <=? Py.len w) && (Py.len w <=? max_len cfg)) then acc
  else if decide (w ∈ seen) then acc
  else ({[ w ]} ∪ seen, words ++ [w]).

Definition load_words (fs : FileSystem) (difficulty : string)
    : exn + list string :=
  match DIFFICULTY !! difficulty with
  | None => inl ValueError
  | Some cfg =>
      match fs !! file cfg with
      | None => inl FileNotFoundError
      | Some lines => inr (snd (fold_left (load_words_step cfg) lines (∅, [])))
      end
  end.

(** [random.choice(words)] with the drawn index [r] made explicit. *)
Definition choose_secret (r : nat) (words : list string) : exn + string :=
  match words with
  | [] => inl AssertionError
  | w0 :: _ => inr (nth (r mod length words)%nat words w0)
  end.

Definition is_valid_letter (ch : string) : bool :=
  let ch := Py.strip ch in
  if negb (Py.len ch =? 1) then false
  else if negb (Py.isalpha ch) then false
  else true.


(** The loop of [mask_word]: [pieces.append] for each character. *)
Definition mask_word_step (guessed_letters : gset string)
    (pieces : list string) (c : ascii) : list string :=
  if decide (Py.str1 c ∈ guessed_letters)
  then pieces ++ [Py.str1 c]
  else pieces ++ ["_"].

Definition mask_word (secret : string) (guessed_letters : gset string) : string :=
  Py.join " " (fold_left (mask_word_step guessed_letters) (Py.chars secret) []).

(** The comprehension iterates the set in the order of [elements]; [sorted]
    makes the result independent of that order. *)
Definition compute_status (secret : string) (guessed_letters : gset string)
    (lives : Z) : GameStatus.t :=
  let masked := mask_word secret guessed_letters in
  let wrong_letters :=
    Py.sorted (filter (λ ch, Py.contains ch secret = false)
                      (elements guessed_letters)) in
  let unique_letters_in_secret := Py.set_of_str secret in
  let won := bool_decide (unique_letters_in_secret ⊆ guessed_letters) in
  let lost := lives <=? 0 in
  GameStatus.mk masked wrong_letters lives won lost.

Definition normalize_guess (ch : string) : string := Py.lower (Py.strip ch).

(** ** app.py: models *)

Inductive Difficulty : Type := easy | normal | hard.

Global Instance Difficulty_eq_dec : EqDecision Difficulty.
Proof. solve_decision. Defined.

(** The string a [Difficulty] literal is. *)
Definition Difficulty_str (d : Difficulty) : string :=
  match d with
  | easy => "easy"
  | normal => "normal"
  | hard => "hard"
  end.

Module NewGameRequest.
Record t : Type := mk { difficulty : Difficulty }.
End NewGameRequest.

Module GuessRequest.
Record t : Type := mk { game_id : string; letter : string }.
(** [Field(..., min_length=8)]: checked before the route runs. *)
Definition valid (req : t) : Prop := 8 <= Py.len (game_id req).
End GuessRequest.

Module RestartRequest.
Record t : Type := mk { game_id : string; difficulty : option Difficulty }.
End RestartRequest.

Module GameResponse.
Record t : Type := mk {
  game_id : string;
  masked : string;
  lives : Z;
  wrong : list string;
  won : bool;
  lost : bool
}.
End GameResponse.

Module GameState.
Record t : Type := mk {
  difficulty : Difficulty;
  secret : string;
  lives : Z;
  guessed : gset string
}.
Definition set_lives (v : Z) (gs : t) : t :=
  mk (difficulty gs) (secret gs) v (guessed gs).
Definition set_guessed (v : gset string) (gs : t) : t :=
  mk (difficulty gs) (secret gs) (lives gs) v.
End GameState.

(** The in-memory store [games]. *)
Abbreviation Games := (gmap string GameState.t).

(** What a request draws from outside the process: the word-list files,
    the value of [uuid4().hex] and the index [random.choice] picks. *)
Record World : Type := mkWorld {
  fs : FileSystem;
  uuid4_hex : string;
  rand : nat
}.

(** ** The monad of the routes: the store is threaded, a raised exception
    keeps the store as it is at the [raise]. *)

Definition M (A : Type) : Type := Games → Games * (exn + A).

Definition ret {A} (a : A) : M A := λ g, (g, inr a).
Definition raise {A} (e : exn) : M A := λ g, (g, inl e).
Definition bind {A B} (m : M A) (k : A → M B) : M B :=
  λ g, match m g with
       | (g', inr a) => k a g'
       | (g', inl e) => (g', inl e)
       end.
Definition lift {A} (r : exn + A) : M A :=
  match r with
  | inl e => raise e
  | inr a => ret a
  end.

Declare Scope route_scope.
Delimit Scope route_scope with route.
Notation "x <- m ;; k" := (bind m (λ x, k))
  (at level 100, m at next level, right associativity) : route_scope.
Notation "'exec' m ;; k" := (bind m (λ _, k))
  (at level 100, m at next level, right associativity) : route_scope.
Local Open Scope route_scope.

(** [games.get(k)] *)
Definition games_get (k : string) : M (option GameState.t) :=
  λ g, (g, inr (g !! k)).
(** [games[k]] *)
Definition games_getitem (k : string) : M GameState.t :=
  λ g, match g !! k with
       | Some gs => (g, inr gs)
       | None => (g, inl KeyError)
       end.
(** [games[k] = gs]; also the write of an attribute of the object that
    [games[k]] refers to, [gs] being the object after the write. *)
Definition games_setitem (k : string) (gs : GameState.t) : M unit :=
  λ g, (<[k := gs]> g, inr tt).

(** ** app.py: helpers and routes *)

Definition _new_game_state (w : World) (difficulty : Difficulty)
    : exn + GameState.t :=
  match load_words (fs w) (Difficulty_str difficulty) with
  | inl e => inl e
  | inr words =>
      match choose_secret (rand w) words with
      | inl e => inl e
      | inr secret =>
          match DIFFICULTY !! Difficulty_str difficulty with
          | None => inl KeyError
          | Some cfg => inr (GameState.mk difficulty secret (cfg_lives cfg) ∅)
          end
      end
  end.

Definition _normalize_letter (s : string) : string := Py.lower (Py.strip s).

Definition _response (game_id : string) (gs : GameState.t) : GameResponse.t :=
  let status :=
    compute_status (GameState.secret gs) (GameState.guessed gs)
                   (GameState.lives gs) in
  GameResponse.mk game_id (GameStatus.masked status) (GameStatus.lives status)
    (GameStatus.wrong status) (GameStatus.won status) (GameStatus.lost status).

Definition api_new (w : World) (req : NewGameRequest.t) : M GameResponse.t :=
  let gid := uuid4_hex w in
  gs <- lift (_new_game_state w (NewGameRequest.difficulty req)) ;;
  exec games_setitem gid gs ;;
  ret (_response gid gs).

Definition api_guess (req : GuessRequest.t) : M GameResponse.t :=
  let game_id := GuessRequest.game_id req in
  gs <- games_get game_id ;;
  match gs with
  | None => raise (HTTPException 404 "Unknown game_id")
  | Some gs =>
      let raw := Py.lower (Py.strip (GuessRequest.letter req)) in
      if negb (Py.truthy raw) then raise (HTTPException 400 "Empty guess")
      else
        let snap :=
          compute_status (GameState.secret gs) (GameState.guessed gs)
                         (GameState.lives gs) in
        if GameStatus.won snap || GameStatus.lost snap
        then ret (_response game_id gs)
        else if Py.len raw =? 1 then
          if negb (is_valid_letter raw)
          then raise (HTTPException 400
                 "Invalid letter: must be a single A–Z character")
          else if decide (raw ∈ GameState.guessed gs)
          then ret (_response game_id gs)
          else
            let gs := GameState.set_guessed ({[ raw ]} ∪ GameState.guessed gs) gs in
            exec games_setitem game_id gs ;;
            if negb (Py.contains raw (GameState.secret gs)) then
              let gs := GameState.set_lives (GameState.lives gs - 1) gs in
              exec games_setitem game_id gs ;;
              ret (_response game_id gs)
            else ret (_response game_id gs)
        else
          if negb (Py.isalpha raw)
          then raise (HTTPException 400 "Invalid word: only letters allowed")
          else if decide (raw = GameState.secret gs) then
            let gs :=
              GameState.set_guessed
                (GameState.guessed gs ∪ Py.set_of_str (GameState.secret gs)) gs in
            exec games_setitem game_id gs ;;
            ret (_response game_id gs)
          else
            let gs := GameState.set_lives (GameState.lives gs - 2) gs in
            exec games_setitem game_id gs ;;
            if GameState.lives gs <? 0 then
              let gs := GameState.set_lives 0 gs in
              exec games_setitem game_id gs ;;
              ret (_response game_id gs)
            else ret (_response game_id gs)
  end.

Definition api_restart (w : World) (req : RestartRequest.t) : M GameResponse.t :=
  let game_id := RestartRequest.game_id req in
  prev <- games_get game_id ;;
  match prev with
  | Some prev =>
      let diff :=
        match RestartRequest.difficulty req with
        | Some d => d
        | None => GameState.difficulty prev
        end in
      gs <- lift (_new_game_state w diff) ;;
      exec games_setitem game_id gs ;;
      gs' <- games_getitem game_id ;;
      ret (_response game_id gs')
  | None =>
      let new_gid := uuid4_hex w in
      let diff :=
        match RestartRequest.difficulty req with
        | Some d => d
        | None => normal
        end in
      gs <- lift (_new_game_state w diff) ;;
      exec games_setitem new_gid gs ;;
      gs' <- games_getitem new_gid ;;
      ret (_response new_gid gs')
  end.

(** ** Reference definitions of the status projection *)

(** What one position of the secret shows. *)
Definition reveal (G : gset string) (c : ascii) : ascii :=
  if decide (Py.str1 c ∈ G) then c else "_"%char.

(** The masked rendering as the specification words it: the revealed
    positions, one space between neighbours. *)
Fixpoint masked_ref (secret : string) (G : gset string) : string :=
  match secret with
  | EmptyString => EmptyString
  | String c rest =>
      match rest with
      | EmptyString => Py.str1 (reveal G c)
      | String _ _ => String (reveal G c) (String " "%char (masked_ref rest G))
      end
  end.

(** [g] is a guessed letter that occurs nowhere in the secret. *)
Definition wrong_letter (secret : string) (G : gset string) (g : string) : Prop :=
  g ∈ G ∧ ∀ c, g = Py.str1 c → c ∉ Py.chars secret.

(** [l] is the ascending list, without repetition, of the wrong letters. *)
Definition is_wrong_list (secret : string) (G : gset string)
    (l : list string) : Prop :=
  StronglySorted (strict String.le) l ∧ ∀ g, g ∈ l ↔ wrong_letter secret G g.

(** Every element of the guessed set is a single character. *)
Definition letters_only (G : gset string) : Prop :=
  ∀ g, g ∈ G → ∃ c, g = Py.str1 c.

Global Instance letters_only_dec G : Decision (letters_only G).
Proof.
  refine (cast_if (decide (set_Forall (λ g, String.length g = 1%nat) G)));
    unfold letters_only.
  - intros g Hg. specialize (s g Hg). simpl in s.
    destruct g as [|c [|]]; try discriminate. by exists c.
  - intros H. apply n. intros g Hg. destruct (H g Hg) as [c ->]. done.
Defined.

(** ** The derived state of a session, and runs of requests *)

Inductive State : Type := IN_PROGRESS | WON | LOST.

Global Instance State_eq_dec : EqDecision State.
Proof. solve_decision. Defined.

(** The state read off the flags of the snapshot, the win first. *)
Definition derived_state (gs : GameState.t) : State :=
  let snap :=
    compute_status (GameState.secret gs) (GameState.guessed gs)
                   (GameState.lives gs) in
  if GameStatus.won snap then WON
  else if GameStatus.lost snap then LOST
  else IN_PROGRESS.

(** The status of a session, as [_response] computes it. *)
Definition status_of (gs : GameState.t) : GameStatus.t :=
  compute_status (GameState.secret gs) (GameState.guessed gs)
                 (GameState.lives gs).

(** One request to the server. *)
Inductive Op : Type :=
  | OpNew (w : World) (req : NewGameRequest.t)
  | OpGuess (req : GuessRequest.t)
  | OpRestart (w : World) (req : RestartRequest.t).

Definition run_op (o : Op) : M GameResponse.t :=
  match o with
  | OpNew w req => api_new w req
  | OpGuess req => api_guess req
  | OpRestart w req => api_restart w req
  end.

(** A run of requests: the final store and what each request returned. *)
Fixpoint run_ops (ops : list Op) (g : Games)
    : Games * list (exn + GameResponse.t) :=
  match ops with
  | [] => (g, [])
  | o :: ops' =>
      let '(g1, out) := run_op o g in
      let '(g2, outs) := run_ops ops' g1 in
      (g2, out :: outs)
  end.

(** No session of the store has negative lives. *)
Definition lives_ok (g : Games) : Prop :=
  ∀ gid gs, g !! gid = Some gs → 0 <= GameState.lives gs.

(** No returned status shows negative lives. *)
Definition outputs_ok (outs : list (exn + GameResponse.t)) : Prop :=
  Forall (λ out, ∀ r, out = inr r → 0 <= GameResponse.lives r) outs.

(** ** Reference definition of the word source *)

(** The filter of [load_words] on a normalized line. *)
Definition accepted (cfg : Cfg) (w : string) : bool :=
  Py.isalpha w && (min_len cfg <=? Py.len w) && (Py.len w <=? max_len cfg).

(** Keep the first occurrence of every element. *)
Fixpoint first_occurrences (ws : list string) : list string :=
  match ws with
  | [] => []
  | w :: ws' => w :: filter (λ v, v ≠ w) (first_occurrences ws')
  end.

(** The normalized lines that pass the filter, in the order of the file. *)
Definition candidates (cfg : Cfg) (lines : list string) : list string :=
  filter (λ w, accepted cfg w = true)
         ((λ line, Py.lower (Py.strip line)) <$> lines).

Definition word_source_ref (cfg : Cfg) (lines : list string) : list string :=
  first_occurrences (candidates cfg lines).

(** No character of [s] has a distinct lowercase form. *)
Definition is_lowercase (s : string) : bool :=
  Py.all_chars (λ c, negb (Py.chr_isupper c)) s.

(** ** What the restart route uses *)

(** The table entry of a [Difficulty] literal. *)
Definition tier_cfg (d : Difficulty) : Cfg :=
  match d with
  | easy => mkCfg 5 6 10 "words_easy.txt"
  | normal => mkCfg 6 8 7 "words_normal.txt"
  | hard => mkCfg 7 99 5 "words_hard.txt"
  end.

(** The difficulty [api_restart] creates the new session with. *)
Definition restart_difficulty (req : RestartRequest.t)
    (prev : option GameState.t) : Difficulty :=
  match RestartRequest.difficulty req, prev with
  | Some d, _ => d
  | None, Some prev => GameState.difficulty prev
  | None, None => normal
  end.

(** The key [api_restart] stores the new session under. *)
Definition restart_key (w : World) (req : RestartRequest.t)
    (prev : option GameState.t) : string :=
  match prev with
  | Some _ => RestartRequest.game_id req
  | None => uuid4_hex w
  end.

(** The exceptions the guess route raises. *)
Definition guess_errors : list exn :=
  [ HTTPException 404 "Unknown game_id";
    HTTPException 400 "Empty guess";
    HTTPException 400 "Invalid letter: must be a single A–Z character";
    HTTPException 400 "Invalid word: only letters allowed" ].

(** The status a response carries. *)
Definition response_status (r : GameResponse.t) : GameStatus.t :=
  GameStatus.mk (GameResponse.masked r) (GameResponse.wrong r)
    (GameResponse.lives r) (GameResponse.won r) (GameResponse.lost r).

(** ** Sample data *)

Definition gid0 : string := "0123456789ab4def8123456789abcdef".

(** A directory with one word list; its lines as a reader yields them. *)
Definition fs0 : FileSystem :=
  {[ "words_normal.txt" :=
       [ String.app "Banana" (Py.str1 "010");
         String.app "kiwi" (Py.str1 "010");
         "  orchard ";
         "banana";
         "pine-apple";
         String.app "ORCHARD" (Py.str1 "010") ] ]}.

Definition w0 : World := mkWorld fs0 gid0 5.

(** A world without word lists. *)
Definition w_nofiles : World := mkWorld ∅ gid0 0.

Definition gs0 : GameState.t := GameState.mk normal "orchard" 7 ∅.
Definition gs_last : GameState.t := GameState.mk normal "orchard" 1 {[ "o"; "z" ]}.
Definition gs_lost : GameState.t := GameState.mk normal "orchard" 0 {[ "z" ]}.
Definition g0 : Games := {[ gid0 := gs0 ]}.
Definition g_last : Games := {[ gid0 := gs_last ]}.
Definition g_lost : Games := {[ gid0 := gs_lost ]}.

(** One hundred letters. *)
Definition w100 : string :=
  String.concat "" (replicate 100 "a").

(** ** The transitions of a session, and what every session satisfies *)

(** What [api_guess] writes to a session in progress: the four branches
    that reach a write. *)
Inductive guess_step (gs : GameState.t) : GameState.t → Prop :=
  | step_letter_hit c :
      Py.chr_isalpha c = true → Py.chr_isupper c = false →
      Py.str1 c ∉ GameState.guessed gs →
      c ∈ Py.chars (GameState.secret gs) →
      guess_step gs
        (GameState.set_guessed ({[ Py.str1 c ]} ∪ GameState.guessed gs) gs)
  | step_letter_miss c :
      Py.chr_isalpha c = true → Py.chr_isupper c = false →
      Py.str1 c ∉ GameState.guessed gs →
      c ∉ Py.chars (GameState.secret gs) →
      guess_step gs
        (GameState.set_lives (GameState.lives gs - 1)
           (GameState.set_guessed ({[ Py.str1 c ]} ∪ GameState.guessed gs) gs))
  | step_word_hit :
      guess_step gs
        (GameState.set_guessed
           (GameState.guessed gs ∪ Py.set_of_str (GameState.secret gs)) gs)
  | step_word_miss :
      guess_step gs
        (GameState.set_lives (Z.max 0 (GameState.lives gs - 2)) gs).

(** A one-character string whose character is a letter without a distinct
    lowercase form. *)
Definition is_letter (g : string) : Prop :=
  ∃ c, g = Py.str1 c ∧ Py.chr_isalpha c = true ∧ Py.chr_isupper c = false.

(** The number of wrong letters the status of a session lists. *)
Definition wrong_count (gs : GameState.t) : Z :=
  Z.of_nat (length (GameStatus.wrong (status_of gs))).

(** What holds of every session the routes create and rewrite. *)
Record session_wf (gs : GameState.t) : Prop := mk_session_wf {
  wf_alpha : Py.isalpha (GameState.secret gs) = true;
  wf_lower : is_lowercase (GameState.secret gs) = true;
  wf_len :
    min_len (tier_cfg (GameState.difficulty gs))
    <= Py.len (GameState.secret gs)
    <= max_len (tier_cfg (GameState.difficulty gs));
  wf_letters : ∀ g, g ∈ GameState.guessed gs → is_letter g;
  wf_lives : 0 <= GameState.lives gs;
  wf_budget :
    GameState.lives gs + wrong_count gs
    <= cfg_lives (tier_cfg (GameState.difficulty gs));
  wf_flags :
    ¬ (GameStatus.won (status_of gs) = true
       ∧ GameStatus.lost (status_of gs) = true)
}.

Definition store_wf (g : Games) : Prop :=
  ∀ k gs, g !! k = Some gs → session_wf gs.

(** The sample run: a new normal game, then a wrong letter. *)
Definition ops0 : list Op :=
  [ OpNew w0 (NewGameRequest.mk normal); OpGuess (GuessRequest.mk gid0 " Z ") ].

(** The requests that guess the letters [cs], one after the other, on the
    session [gid]. *)
Definition guess_letters (gid : string) (cs : list ascii) : list Op :=
  (λ c, OpGuess (GuessRequest.mk gid (Py.str1 c))) <$> cs.

(** The one-letter strings of [cs], as a set. *)
Definition letter_set (cs : list ascii) : gset string :=
  list_to_set (Py.str1 <$> cs).

(** * Properties *)

Example mask_apple : mask_word "apple" {[ "a"; "e" ]} = "a _ _ _ e".
Proof. vm_compute. reflexivity. Qed.

Example status_banana :
  compute_status "banana" {[ "b"; "n"; "x" ]} 4
  = GameStatus.mk "b _ n _ n _" ["x"] 4 false false.
Proof. vm_compute. reflexivity. Qed.


(** ** Strings *)

Section strings.
Implicit Types (s : string) (c : ascii).

Lemma prefix_str1 c s :
  String.prefix (Py.str1 c) s = true ↔ ∃ s', s = String c s'.
Proof.
  destruct s as [|c' s']; simpl.
  - split; [done | by intros [? ?]].
  - destruct (ascii_dec c c') as [->|Hne].
    + destruct s'; split; eauto.
    + split; [done | intros [? [= ? ?]]; congruence].
Qed.

Lemma contains_str1 c s : Py.contains (Py.str1 c) s = true ↔ c ∈ Py.chars s.
Proof.
  induction s as [|c' s' IH].
  - simpl. split; [done | by intros ?%elem_of_nil].
  - cbn [Py.contains Py.chars]. rewrite orb_true_iff, IH, elem_of_cons.
    rewrite prefix_str1. split.
    + intros [[? [= -> _]]|?]; auto.
    + intros [->|?]; eauto.
Qed.

Lemma elem_of_set_of_str g s :
  g ∈ Py.set_of_str s ↔ ∃ c, g = Py.str1 c ∧ c ∈ Py.chars s.
Proof.
  unfold Py.set_of_str. rewrite elem_of_list_to_set, list_elem_of_fmap.
  done.
Qed.


End strings.

(** ** The status projection *)

Section status.
Implicit Types (secret g : string) (G : gset string) (c : ascii).

Lemma mask_word_loop G cs pieces :
  fold_left (mask_word_step G) cs pieces
  = pieces ++ ((λ c, Py.str1 (reveal G c)) <$> cs).
Proof.
  revert pieces. induction cs as [|c cs IH]; intros pieces; simpl.
  - by rewrite app_nil_r.
  - rewrite IH. unfold mask_word_step, reveal.
    case_decide; by rewrite <- app_assoc.
Qed.

Lemma mask_word_ref secret G : mask_word secret G = masked_ref secret G.
Proof.
  unfold mask_word. rewrite mask_word_loop. simpl. unfold Py.join.
  induction secret as [|c rest IH]; [done|].
  destruct rest as [|c' rest']; [done|].
  change (masked_ref (String c (String c' rest')) G)
    with (String (reveal G c) (String " " (masked_ref (String c' rest') G))).
  rewrite <- IH. done.
Qed.

Lemma masked_ref_length secret G :
  String.length (masked_ref secret G)
  = (2 * String.length secret - 1)%nat.
Proof.
  induction secret as [|c rest IH]; [done|].
  destruct rest as [|c' rest']; [done|].
  change (masked_ref (String c (String c' rest')) G)
    with (String (reveal G c) (String " " (masked_ref (String c' rest') G))).
  cbn [String.length] in *. rewrite IH. lia.
Qed.

Lemma masked_ref_letter secret G i c :
  String.get i secret = Some c →
  String.get (2 * i) (masked_ref secret G) = Some (reveal G c).
Proof.
  revert i. induction secret as [|c0 rest IH]; intros i Hi; [done|].
  destruct i as [|i].
  - simpl in Hi. injection Hi as ->. by destruct rest.
  - simpl in Hi. destruct rest as [|c' rest']; [done|].
    change (masked_ref (String c0 (String c' rest')) G)
      with (String (reveal G c0) (String " " (masked_ref (String c' rest') G))).
    replace (2 * S i)%nat with (S (S (2 * i))) by lia.
    cbn [String.get]. by apply IH.
Qed.

Lemma masked_ref_space secret G i :
  (S i < String.length secret)%nat →
  String.get (2 * i + 1) (masked_ref secret G) = Some " "%char.
Proof.
  revert i. induction secret as [|c0 rest IH]; intros i Hi; [simpl in Hi; lia|].
  destruct rest as [|c' rest']; [simpl in Hi; lia|].
  change (masked_ref (String c0 (String c' rest')) G)
    with (String (reveal G c0) (String " " (masked_ref (String c' rest') G))).
  destruct i as [|i]; [done|].
  replace (2 * S i + 1)%nat with (S (S (2 * i + 1))) by lia.
  cbn [String.get]. apply IH. cbn [String.length] in *. lia.
Qed.

(** A list ascending for the strict order has no repetition. *)
Lemma strict_sorted_NoDup (l : list string) :
  StronglySorted (strict String.le) l → NoDup l.
Proof.
  induction 1 as [|x l _ IH Hx]; constructor; [|done].
  intros Hin. rewrite Forall_forall in Hx.
  destruct (Hx x Hin) as [_ Hirr]. by apply Hirr.
Qed.

Lemma strict_sorted_le (l : list string) :
  StronglySorted (strict String.le) l → StronglySorted String.le l.
Proof.
  induction 1 as [|x l _ IH Hx]; constructor; [done|].
  eapply Forall_impl; [exact Hx|]. by intros y [? _].
Qed.

Lemma sorted_NoDup_strict (l : list string) :
  StronglySorted String.le l → NoDup l → StronglySorted (strict String.le) l.
Proof.
  induction 1 as [|x l _ IH Hx]; intros Hnd; [constructor|].
  apply NoDup_cons in Hnd as [Hnin Hnd].
  constructor; [by apply IH|].
  rewrite Forall_forall in Hx |- *. intros y Hy. split; [by apply Hx|].
  intros Hyx. assert (x = y) as -> by (apply (anti_symm String.le); auto).
  done.
Qed.

(** Two strictly ascending lists with the same elements are equal. *)
Lemma strict_sorted_ext (l1 l2 : list string) :
  StronglySorted (strict String.le) l1 →
  StronglySorted (strict String.le) l2 →
  (∀ g, g ∈ l1 ↔ g ∈ l2) → l1 = l2.
Proof.
  intros H1 H2 Hel.
  apply (StronglySorted_unique String.le); [by apply strict_sorted_le..|].
  apply NoDup_Permutation; auto using strict_sorted_NoDup.
Qed.

Lemma sorted_strict (l : list string) :
  NoDup l → StronglySorted (strict String.le) (Py.sorted l).
Proof.
  intros Hnd. unfold Py.sorted. apply sorted_NoDup_strict.
  - apply (StronglySorted_merge_sort String.le).
  - by rewrite merge_sort_Permutation.
Qed.

Lemma elem_of_sorted (l : list string) g : g ∈ Py.sorted l ↔ g ∈ l.
Proof. unfold Py.sorted. by rewrite merge_sort_Permutation. Qed.

(** The order in which the set is iterated does not show in [sorted]. *)
Lemma sorted_iteration_order (l1 l2 : list string) :
  NoDup l1 → l1 ≡ₚ l2 → Py.sorted l1 = Py.sorted l2.
Proof.
  intros Hnd Hp. apply strict_sorted_ext.
  - by apply sorted_strict.
  - apply sorted_strict. by rewrite <- Hp.
  - intros g. by rewrite !elem_of_sorted, Hp.
Qed.

Lemma compute_status_wrong secret G lives :
  letters_only G →
  is_wrong_list secret G (GameStatus.wrong (compute_status secret G lives)).
Proof.
  intros HG. cbn [compute_status GameStatus.wrong]. split.
  - apply sorted_strict, NoDup_filter, NoDup_elements.
  - intros g. rewrite elem_of_sorted, list_elem_of_filter, elem_of_elements.
    unfold wrong_letter. split.
    + intros [Hc Hg]. split; [done|]. intros c ->.
      rewrite <- contains_str1. by rewrite Hc.
    + intros [Hg Hc]. split; [|done].
      destruct (HG g Hg) as [c ->]. specialize (Hc c eq_refl).
      rewrite <- contains_str1 in Hc. by destruct (Py.contains _ _).
Qed.

Lemma compute_status_won secret G lives :
  GameStatus.won (compute_status secret G lives) = true
  ↔ ∀ c, c ∈ Py.chars secret → Py.str1 c ∈ G.
Proof.
  cbn [compute_status GameStatus.won]. rewrite bool_decide_eq_true.
  split.
  - intros Hsub c Hc. apply Hsub, elem_of_set_of_str. eauto.
  - intros H g (c & -> & Hc)%elem_of_set_of_str. auto.
Qed.

Lemma compute_status_lost secret G lives :
  GameStatus.lost (compute_status secret G lives) = true ↔ lives <= 0.
Proof. cbn [compute_status GameStatus.lost]. apply Z.leb_le. Qed.

End status.

(** ** Characters: facts of the tables *)

Section chars.
Implicit Types (s : string) (c : ascii).

Ltac by_table c := destruct c as [[] [] [] [] [] [] [] []]; vm_compute; congruence.

Lemma alpha_not_space c : Py.chr_isalpha c = true → Py.chr_isspace c = false.
Proof. by_table c. Qed.

Lemma lower_not_upper c : Py.chr_isupper (Py.chr_lower c) = false.
Proof. by_table c. Qed.



Lemma chr_lower_fixed c : Py.chr_isupper c = false → Py.chr_lower c = c.
Proof. unfold Py.chr_lower. by intros ->. Qed.


Lemma lower_is_lowercase s : is_lowercase (Py.lower s) = true.
Proof.
  induction s as [|c s IH]; [done|]. unfold is_lowercase in *. simpl.
  by rewrite lower_not_upper, IH.
Qed.

Lemma lowercase_lower_id s : is_lowercase s = true → Py.lower s = s.
Proof.
  unfold is_lowercase. induction s as [|c s IH]; [done|]. simpl.
  intros [Hc Hs]%andb_true_iff. apply negb_true_iff in Hc.
  by rewrite chr_lower_fixed, IH.
Qed.

Lemma lower_lower s : Py.lower (Py.lower s) = Py.lower s.
Proof. apply lowercase_lower_id, lower_is_lowercase. Qed.




Lemma isalpha_all s : Py.isalpha s = true → Py.all_chars Py.chr_isalpha s = true.
Proof. by destruct s. Qed.

(** A string without white space at its ends is its own [strip]. *)
Lemma lstrip_alpha s : Py.all_chars Py.chr_isalpha s = true → Py.lstrip s = s.
Proof.
  destruct s as [|c s]; [done|]. simpl. intros [Hc _]%andb_true_iff.
  by rewrite (alpha_not_space c Hc).
Qed.

Lemma rstrip_alpha s : Py.all_chars Py.chr_isalpha s = true → Py.rstrip s = s.
Proof.
  induction s as [|c s IH]; [done|]. simpl. intros [Hc Hs]%andb_true_iff.
  rewrite (IH Hs). destruct s; [|done]. by rewrite (alpha_not_space c Hc).
Qed.

Lemma strip_alpha s : Py.isalpha s = true → Py.strip s = s.
Proof.
  intros H%isalpha_all. unfold Py.strip. by rewrite lstrip_alpha, rstrip_alpha.
Qed.


Lemma len_1 s : Py.len s = 1 → ∃ c, s = Py.str1 c.
Proof.
  unfold Py.len. destruct s as [|c [|]]; simpl; try lia. by exists c.
Qed.

Lemma len_str1 c : Py.len (Py.str1 c) = 1.
Proof. done. Qed.

Lemma is_valid_letter_str1 c :
  is_valid_letter (Py.str1 c) = Py.chr_isalpha c.
Proof.
  unfold is_valid_letter, Py.strip. simpl.
  destruct (Py.chr_isspace c) eqn:Hsp; simpl.
  - destruct (Py.chr_isalpha c) eqn:Ha; [|done].
    by rewrite (alpha_not_space c Ha) in Hsp.
  - rewrite Hsp. simpl. by rewrite andb_true_r; destruct (Py.chr_isalpha c).
Qed.


End chars.

(** ** The guess route, path by path *)

Section guess.
Context (g : Games) (req : GuessRequest.t) (gs : GameState.t) (raw : string).
Context (Hgs : g !! GuessRequest.game_id req = Some gs).
Context (Hraw : Py.lower (Py.strip (GuessRequest.letter req)) = raw).

Let gid := GuessRequest.game_id req.

Lemma derived_ended :
  derived_state gs ≠ IN_PROGRESS ↔
  GameStatus.won (status_of gs) || GameStatus.lost (status_of gs) = true.
Proof.
  unfold derived_state, status_of.
  destruct (GameStatus.won _), (GameStatus.lost _); simpl; split; congruence.
Qed.

Lemma derived_in_progress :
  derived_state gs = IN_PROGRESS ↔
  GameStatus.won (status_of gs) || GameStatus.lost (status_of gs) = false.
Proof.
  unfold derived_state, status_of.
  destruct (GameStatus.won _), (GameStatus.lost _); simpl; split; congruence.
Qed.

Ltac enter :=
  unfold api_guess, bind, games_get, games_setitem, ret, raise;
  cbn beta iota zeta; rewrite Hgs; cbn beta iota zeta; rewrite Hraw;
  fold (status_of gs).

Ltac running H :=
  enter; rewrite (proj1 derived_in_progress H); cbn beta iota.

Lemma api_guess_empty :
  Py.truthy raw = false →
  api_guess req g = (g, inl (HTTPException 400 "Empty guess")).
Proof. intros Ht. enter. by rewrite Ht. Qed.

Lemma api_guess_ended :
  Py.truthy raw = true → derived_state gs ≠ IN_PROGRESS →
  api_guess req g = (g, inr (_response gid gs)).
Proof.
  intros Ht He. enter. rewrite Ht. cbn beta iota.
  by rewrite (proj1 derived_ended He).
Qed.

Section running.
Context (Hrun : derived_state gs = IN_PROGRESS).

Section letter.
Context (c : ascii) (Hc : raw = Py.str1 c).

Lemma api_guess_bad_letter :
  Py.chr_isalpha c = false →
  api_guess req g
  = (g, inl (HTTPException 400
               "Invalid letter: must be a single A–Z character")).
Proof.
  intros Ha. running Hrun. clear Hraw. subst raw.
    change (Py.truthy (Py.str1 c)) with true. cbn [negb].
  rewrite len_str1, is_valid_letter_str1, Ha. done.
Qed.

Section valid.
Context (Ha : Py.chr_isalpha c = true).

Lemma api_guess_repeat :
  raw ∈ GameState.guessed gs →
  api_guess req g = (g, inr (_response gid gs)).
Proof.
  intros Hin. running Hrun. clear Hraw. subst raw.
  change (Py.truthy (Py.str1 c)) with true. cbn [negb].
  rewrite len_str1, is_valid_letter_str1, Ha.
  change (1 =? 1) with true. cbn [negb]. cbn beta iota.
  rewrite decide_True by done. done.
Qed.

Lemma api_guess_letter_hit :
  raw ∉ GameState.guessed gs → c ∈ Py.chars (GameState.secret gs) →
  let gs1 :=
    GameState.set_guessed ({[ raw ]} ∪ GameState.guessed gs) gs in
  api_guess req g = (<[gid := gs1]> g, inr (_response gid gs1)).
Proof.
  intros Hnin Hsec. running Hrun. clear Hraw. subst raw.
  change (Py.truthy (Py.str1 c)) with true. cbn [negb].
  rewrite len_str1, is_valid_letter_str1, Ha.
  change (1 =? 1) with true. cbn [negb]. cbn beta iota.
  rewrite decide_False by done.
  apply contains_str1 in Hsec. cbn [GameState.set_guessed GameState.secret].
  rewrite Hsec. done.
Qed.

Lemma api_guess_letter_miss :
  raw ∉ GameState.guessed gs → c ∉ Py.chars (GameState.secret gs) →
  let gs1 :=
    GameState.set_lives (GameState.lives gs - 1)
      (GameState.set_guessed ({[ raw ]} ∪ GameState.guessed gs) gs) in
  api_guess req g = (<[gid := gs1]> g, inr (_response gid gs1)).
Proof.
  intros Hnin Hsec. running Hrun. clear Hraw. subst raw.
  change (Py.truthy (Py.str1 c)) with true. cbn [negb].
  rewrite len_str1, is_valid_letter_str1, Ha.
  change (1 =? 1) with true. cbn [negb]. cbn beta iota.
  rewrite decide_False by done.
  rewrite <- contains_str1 in Hsec. apply not_true_is_false in Hsec.
  cbn [GameState.set_guessed GameState.secret].
  rewrite Hsec. cbn [negb]. cbn beta iota zeta. by rewrite insert_insert_eq.
Qed.
End valid.
End letter.

Section word.
Context (Hlen : 2 <= Py.len raw).

Lemma word_not_letter : Py.truthy raw = true ∧ (Py.len raw =? 1) = false.
Proof.
  split; [|lia]. destruct raw; [|done]. unfold Py.len in Hlen. simpl in Hlen. lia.
Qed.

Lemma api_guess_bad_word :
  Py.isalpha raw = false →
  api_guess req g
  = (g, inl (HTTPException 400 "Invalid word: only letters allowed")).
Proof.
  intros Ha. running Hrun. destruct word_not_letter as [-> ->].
  cbn [negb]. by rewrite Ha.
Qed.

Lemma api_guess_word_hit :
  Py.isalpha raw = true → raw = GameState.secret gs →
  let gs1 :=
    GameState.set_guessed
      (GameState.guessed gs ∪ Py.set_of_str (GameState.secret gs)) gs in
  api_guess req g = (<[gid := gs1]> g, inr (_response gid gs1)).
Proof.
  intros Ha Heq. running Hrun. destruct word_not_letter as [-> ->].
  cbn [negb]. rewrite Ha. cbn [negb]. by rewrite decide_True.
Qed.

Lemma api_guess_word_miss :
  Py.isalpha raw = true → raw ≠ GameState.secret gs →
  let gs1 := GameState.set_lives (Z.max 0 (GameState.lives gs - 2)) gs in
  api_guess req g = (<[gid := gs1]> g, inr (_response gid gs1)).
Proof.
  intros Ha Hne. running Hrun. destruct word_not_letter as [-> ->].
  cbn [negb]. rewrite Ha. cbn [negb]. rewrite decide_False by done.
  cbn [GameState.set_lives GameState.lives]. cbn beta iota zeta.
  destruct (Z.ltb_spec (GameState.lives gs - 2) 0); cbn beta iota zeta.
  - rewrite insert_insert_eq, Z.max_l by lia. done.
  - rewrite Z.max_r by lia. done.
Qed.
End word.
End running.
End guess.

Lemma api_guess_unknown (g : Games) (req : GuessRequest.t) :
  g !! GuessRequest.game_id req = None →
  api_guess req g = (g, inl (HTTPException 404 "Unknown game_id")).
Proof.
  intros Hg. unfold api_guess, bind, games_get, raise. cbn beta iota zeta.
  by rewrite Hg.
Qed.

(** ** The difficulty table and the word source *)

Section words.
Implicit Types (w : string) (l p : list string) (cfg : Cfg).

Lemma DIFFICULTY_lookup d cfg :
  DIFFICULTY !! d = Some cfg ↔
    (d = "easy" ∧ cfg = mkCfg 5 6 10 "words_easy.txt")
    ∨ (d = "normal" ∧ cfg = mkCfg 6 8 7 "words_normal.txt")
    ∨ (d = "hard" ∧ cfg = mkCfg 7 99 5 "words_hard.txt").
Proof.
  unfold DIFFICULTY. rewrite !lookup_insert, lookup_empty.
  repeat case_decide; subst; intuition congruence.
Qed.

Lemma DIFFICULTY_literal (d : Difficulty) :
  DIFFICULTY !! Difficulty_str d
  = Some match d with
         | easy => mkCfg 5 6 10 "words_easy.txt"
         | normal => mkCfg 6 8 7 "words_normal.txt"
         | hard => mkCfg 7 99 5 "words_hard.txt"
         end.
Proof. by destruct d. Qed.

Lemma elem_of_first_occurrences l w : w ∈ first_occurrences l ↔ w ∈ l.
Proof.
  induction l as [|x l IH]; [done|]. simpl.
  rewrite !elem_of_cons, list_elem_of_filter, IH.
  destruct (decide (w = x)); intuition congruence.
Qed.

Lemma NoDup_first_occurrences l : NoDup (first_occurrences l).
Proof.
  induction l as [|x l IH]; simpl; constructor.
  - rewrite list_elem_of_filter. intros [Hne _]. by apply Hne.
  - by apply NoDup_filter.
Qed.

Lemma first_occurrences_sublist l : first_occurrences l `sublist_of` l.
Proof.
  induction l as [|x l IH]; [done|]. simpl. constructor.
  etrans; [apply sublist_filter | done].
Qed.

Lemma first_occurrences_snoc l w :
  first_occurrences (l ++ [w])
  = if decide (w ∈ l) then first_occurrences l else first_occurrences l ++ [w].
Proof.
  induction l as [|x l IH]; [done|].
  cbn [app first_occurrences]. rewrite IH.
  destruct (decide (w = x)) as [->|Hne].
  - rewrite (decide_True (P := x ∈ x :: l)) by apply list_elem_of_here.
    case_decide; [done|].
    rewrite filter_app, (filter_cons_False _ x) by (intros Hne; by apply Hne).
    by rewrite filter_nil, app_nil_r.
  - case_decide as Hin.
    + by rewrite decide_True by by apply list_elem_of_further.
    + rewrite decide_False by (rewrite elem_of_cons; intuition congruence).
      rewrite filter_app, (filter_cons_True _ w) by done.
      by rewrite filter_nil.
Qed.

Lemma accepted_skip cfg w :
  accepted cfg w = false ↔
    negb (Py.truthy w) || negb (Py.isalpha w) = true
    ∨ negb ((min_len cfg <=? Py.len w) && (Py.len w <=? max_len cfg)) = true.
Proof.
  unfold accepted. destruct w as [|c w]; [simpl; intuition congruence|].
  cbn [Py.truthy negb orb].
  destruct (Py.isalpha _), (_ <=? _), (_ <=? _); simpl; intuition congruence.
Qed.

Lemma candidates_cons cfg line lines :
  candidates cfg (line :: lines)
  = let w := Py.lower (Py.strip line) in
    if accepted cfg w then w :: candidates cfg lines else candidates cfg lines.
Proof.
  unfold candidates. rewrite fmap_cons. cbn zeta.
  destruct (accepted cfg _) eqn:Hacc.
  - by rewrite filter_cons_True.
  - by rewrite filter_cons_False by congruence.
Qed.

(** The loop of [load_words], started after the accepted words [p]. *)
Lemma load_words_loop cfg lines p :
  fold_left (load_words_step cfg) lines
    (list_to_set (first_occurrences p), first_occurrences p)
  = (list_to_set (first_occurrences (p ++ candidates cfg lines)),
     first_occurrences (p ++ candidates cfg lines)).
Proof.
  revert p. induction lines as [|line lines IH]; intros p.
  { simpl. by rewrite app_nil_r. }
  cbn [fold_left]. rewrite candidates_cons. cbn zeta.
  set (w := Py.lower (Py.strip line)).
  unfold load_words_step at 2. fold w.
  destruct (accepted cfg w) eqn:Hacc.
  - assert (negb (Py.truthy w) || negb (Py.isalpha w) = false) as ->.
    { apply not_true_is_false. intros H.
      assert (accepted cfg w = false) by (apply accepted_skip; auto). congruence. }
    assert (negb ((min_len cfg <=? Py.len w) && (Py.len w <=? max_len cfg))
            = false) as ->.
    { apply not_true_is_false. intros H.
      assert (accepted cfg w = false) by (apply accepted_skip; auto). congruence. }
    replace (p ++ w :: candidates cfg lines)
      with ((p ++ [w]) ++ candidates cfg lines) by by rewrite <- app_assoc.
    rewrite <- IH. f_equal. rewrite first_occurrences_snoc.
    case_decide as Hseen.
    + rewrite elem_of_list_to_set, elem_of_first_occurrences in Hseen.
      by rewrite decide_True.
    + rewrite elem_of_list_to_set, elem_of_first_occurrences in Hseen.
      rewrite decide_False by done. f_equal.
      rewrite list_to_set_app_L. simpl.
      rewrite (right_id_L ∅ (∪)). apply (comm_L (∪)).
  - apply accepted_skip in Hacc as [-> | Hlen]; [apply IH|].
    rewrite Hlen. destruct (_ || _); apply IH.
Qed.

Lemma load_words_ok fs d cfg lines :
  DIFFICULTY !! d = Some cfg → fs !! file cfg = Some lines →
  load_words fs d = inr (word_source_ref cfg lines).
Proof.
  intros Hd Hf. unfold load_words. rewrite Hd, Hf. f_equal.
  pose proof (load_words_loop cfg lines []) as H. simpl in H.
  rewrite H. done.
Qed.

Lemma elem_of_word_source_ref cfg lines w :
  w ∈ word_source_ref cfg lines ↔
    accepted cfg w = true ∧ ∃ line, line ∈ lines ∧ w = Py.lower (Py.strip line).
Proof.
  unfold word_source_ref, candidates.
  rewrite elem_of_first_occurrences, list_elem_of_filter, list_elem_of_fmap.
  split.
  - intros [Hacc (line & -> & Hin)]. eauto.
  - intros [Hacc (line & Hin & ->)]. eauto.
Qed.

Lemma accepted_iff cfg w :
  accepted cfg w = true ↔
    Py.isalpha w = true ∧ min_len cfg <= Py.len w <= max_len cfg.
Proof.
  unfold accepted. rewrite !andb_true_iff, !Z.leb_le. tauto.
Qed.

End words.

(** ** Session creation and the routes that call it *)

Section creation.
Implicit Types (w : World) (d : Difficulty) (gs : GameState.t) (g : Games).

Lemma choose_secret_elem r words secret :
  choose_secret r words = inr secret → secret ∈ words.
Proof.
  destruct words as [|w0 ws]; [done|]. unfold choose_secret.
  intros H. injection H as <-. apply list_elem_of_In.
  apply (nth_In (w0 :: ws) w0 (n := (r mod length (w0 :: ws))%nat)).
  apply Nat.mod_upper_bound. done.
Qed.

Lemma choose_secret_nonempty r words :
  words ≠ [] → ∃ secret, choose_secret r words = inr secret.
Proof. destruct words; [done|]. eauto. Qed.

Lemma new_game_state_eq w d :
  _new_game_state w d
  = match fs w !! file (tier_cfg d) with
    | None => inl FileNotFoundError
    | Some lines =>
        match choose_secret (rand w) (word_source_ref (tier_cfg d) lines) with
        | inl e => inl e
        | inr secret =>
            inr (GameState.mk d secret (cfg_lives (tier_cfg d)) ∅)
        end
    end.
Proof.
  unfold _new_game_state. rewrite DIFFICULTY_literal. fold (tier_cfg d).
  destruct (fs w !! file (tier_cfg d)) as [lines|] eqn:Hf.
  - rewrite (load_words_ok _ _ _ _ (DIFFICULTY_literal d) Hf). done.
  - unfold load_words. rewrite DIFFICULTY_literal. fold (tier_cfg d).
    by rewrite Hf.
Qed.

Lemma new_game_state_fresh w d gs :
  _new_game_state w d = inr gs →
  GameState.difficulty gs = d
  ∧ GameState.guessed gs = ∅
  ∧ GameState.lives gs = cfg_lives (tier_cfg d)
  ∧ ∃ lines, fs w !! file (tier_cfg d) = Some lines
             ∧ GameState.secret gs ∈ word_source_ref (tier_cfg d) lines.
Proof.
  rewrite new_game_state_eq.
  destruct (fs w !! _) as [lines|]; [|done].
  destruct (choose_secret _ _) as [e|secret] eqn:Hc; [done|].
  intros [= <-]. repeat split; simpl. exists lines. split; [done|].
  by eapply choose_secret_elem.
Qed.

Lemma new_game_state_error w d e :
  _new_game_state w d = inl e →
  (e = FileNotFoundError ∧ fs w !! file (tier_cfg d) = None)
  ∨ (e = AssertionError
     ∧ ∃ lines, fs w !! file (tier_cfg d) = Some lines
                ∧ word_source_ref (tier_cfg d) lines = []).
Proof.
  rewrite new_game_state_eq.
  destruct (fs w !! _) as [lines|]; [|intros [= <-]; by left].
  destruct (word_source_ref _ lines) as [|w0 ws] eqn:Hws; simpl.
  - intros [= <-]. right. eauto.
  - done.
Qed.

Lemma new_game_state_lives w d gs :
  _new_game_state w d = inr gs → 0 < GameState.lives gs.
Proof.
  intros (_ & _ & -> & _)%new_game_state_fresh. by destruct d.
Qed.

Lemma api_new_ok w req g gs :
  _new_game_state w (NewGameRequest.difficulty req) = inr gs →
  api_new w req g
  = (<[uuid4_hex w := gs]> g, inr (_response (uuid4_hex w) gs)).
Proof. intros H. unfold api_new, bind, lift. by rewrite H. Qed.

Lemma api_new_error w req g e :
  _new_game_state w (NewGameRequest.difficulty req) = inl e →
  api_new w req g = (g, inl e).
Proof. intros H. unfold api_new, bind, lift. by rewrite H. Qed.

Lemma api_restart_ok w req g gs :
  let prev := g !! RestartRequest.game_id req in
  _new_game_state w (restart_difficulty req prev) = inr gs →
  api_restart w req g
  = (<[restart_key w req prev := gs]> g,
     inr (_response (restart_key w req prev) gs)).
Proof.
  cbn zeta. unfold api_restart, restart_difficulty, restart_key.
  unfold bind, games_get, games_getitem, games_setitem, lift, ret, raise.
  cbn beta iota zeta.
  destruct (g !! RestartRequest.game_id req) as [prev|];
    destruct (RestartRequest.difficulty req) as [d|];
    intros ->; cbn beta iota zeta; by rewrite lookup_insert_eq.
Qed.

Lemma api_restart_error w req g e :
  let prev := g !! RestartRequest.game_id req in
  _new_game_state w (restart_difficulty req prev) = inl e →
  api_restart w req g = (g, inl e).
Proof.
  cbn zeta. unfold api_restart, restart_difficulty.
  unfold bind, games_get, lift, raise. cbn beta iota zeta.
  destruct (g !! RestartRequest.game_id req) as [prev|];
    destruct (RestartRequest.difficulty req) as [d|];
    by intros ->.
Qed.

End creation.

(** ** Every guess, whatever its path *)

Section all_paths.
Implicit Types (g : Games) (req : GuessRequest.t) (gs : GameState.t).

Lemma not_letter_is_word s :
  Py.truthy s = true → (Py.len s =? 1) = false → 2 <= Py.len s.
Proof.
  unfold Py.len. destruct s as [|c [|c' s]]; simpl; intros; try done; lia.
Qed.

Lemma response_lives gid gs :
  GameResponse.lives (_response gid gs) = GameState.lives gs.
Proof. done. Qed.

Lemma in_progress_lives gs : derived_state gs = IN_PROGRESS → 0 < GameState.lives gs.
Proof.
  unfold derived_state. destruct (GameStatus.won _); [done|].
  destruct (GameStatus.lost _) eqn:Hl; [done|]. intros _.
  cbn in Hl. lia.
Qed.

(** A guess raises, or returns the status of the untouched session, or
    rewrites the one session it names, which was in progress. *)
Lemma api_guess_cases g req :
  let gid := GuessRequest.game_id req in
  (∃ e, e ∈ guess_errors ∧ api_guess req g = (g, inl e))
  ∨ (∃ gs, g !! gid = Some gs ∧ api_guess req g = (g, inr (_response gid gs)))
  ∨ (∃ gs gs1,
       g !! gid = Some gs ∧ derived_state gs = IN_PROGRESS
       ∧ api_guess req g = (<[gid := gs1]> g, inr (_response gid gs1))
       ∧ GameState.secret gs1 = GameState.secret gs
       ∧ GameState.difficulty gs1 = GameState.difficulty gs
       ∧ GameState.guessed gs ⊆ GameState.guessed gs1
       ∧ (GameState.lives gs1 = GameState.lives gs
          ∨ GameState.lives gs1 = GameState.lives gs - 1
          ∨ GameState.lives gs1 = Z.max 0 (GameState.lives gs - 2))).
Proof.
  intros gid.
  destruct (g !! gid) as [gs|] eqn:Hgs;
    [|left; eexists; split; [|by apply api_guess_unknown]; set_solver].
  set (raw := Py.lower (Py.strip (GuessRequest.letter req))).
  assert (Hraw : Py.lower (Py.strip (GuessRequest.letter req)) = raw) by done.
  destruct (Py.truthy raw) eqn:Ht;
    [|left; eexists; split; [|by apply (api_guess_empty g req gs raw Hgs Hraw)]; set_solver].
  destruct (decide (derived_state gs = IN_PROGRESS)) as [Hrun|Hend];
    [|right; left; exists gs; split; [done|]; by apply (api_guess_ended g req gs raw Hgs Hraw)].
  destruct (Py.len raw =? 1) eqn:Hlen.
  - apply Z.eqb_eq, len_1 in Hlen as [c Hc].
    destruct (Py.chr_isalpha c) eqn:Ha;
      [|left; eexists; split; [|by apply (api_guess_bad_letter g req gs raw Hgs Hraw Hrun c Hc)]; set_solver].
    destruct (decide (raw ∈ GameState.guessed gs)) as [Hin|Hnin];
      [right; left; exists gs; split; [done|]; by apply (api_guess_repeat g req gs raw Hgs Hraw Hrun c Hc Ha)|].
    right; right. exists gs.
    destruct (decide (c ∈ Py.chars (GameState.secret gs))) as [Hs|Hs].
    + eexists. split; [done|]. split; [done|].
      split; [by apply (api_guess_letter_hit g req gs raw Hgs Hraw Hrun c Hc Ha)|]. simpl.
      repeat split; [set_solver | by left].
    + eexists. split; [done|]. split; [done|].
      split; [by apply (api_guess_letter_miss g req gs raw Hgs Hraw Hrun c Hc Ha)|]. simpl.
      repeat split; [set_solver | right; by left].
  - pose proof (not_letter_is_word raw Ht Hlen) as H2.
    destruct (Py.isalpha raw) eqn:Ha;
      [|left; eexists; split; [|by apply (api_guess_bad_word g req gs raw Hgs Hraw Hrun H2)]; set_solver].
    right; right. exists gs.
    destruct (decide (raw = GameState.secret gs)) as [Heq|Hne].
    + eexists. split; [done|]. split; [done|].
      split; [by apply (api_guess_word_hit g req gs raw Hgs Hraw Hrun H2)|]. simpl.
      repeat split; [set_solver | by left].
    + eexists. split; [done|]. split; [done|].
      split; [by apply (api_guess_word_miss g req gs raw Hgs Hraw Hrun H2)|]. simpl.
      repeat split; [done | right; by right].
Qed.

Lemma lives_ok_insert g gid gs :
  lives_ok g → 0 <= GameState.lives gs → lives_ok (<[gid := gs]> g).
Proof.
  intros Hg Hgs k gs'. rewrite lookup_insert. case_decide.
  - by intros [= <-].
  - apply Hg.
Qed.

Lemma api_guess_lives_ok g req :
  lives_ok g →
  lives_ok (api_guess req g).1
  ∧ ∀ r, (api_guess req g).2 = inr r → 0 <= GameResponse.lives r.
Proof.
  intros Hg.
  destruct (api_guess_cases g req)
    as [(e & _ & ->) | [(gs & Hgs & ->) | (gs & gs1 & Hgs & Hrun & -> & _ & _ & _ & Hl)]];
    simpl.
  - done.
  - split; [done|]. intros r [= <-]. rewrite response_lives. eauto.
  - apply in_progress_lives in Hrun.
    assert (0 <= GameState.lives gs1) by lia.
    split; [by apply lives_ok_insert|].
    intros r [= <-]. by rewrite response_lives.
Qed.

Lemma run_op_lives_ok o g :
  lives_ok g →
  lives_ok (run_op o g).1
  ∧ ∀ r, (run_op o g).2 = inr r → 0 <= GameResponse.lives r.
Proof.
  intros Hg. destruct o as [w req|req|w req]; simpl.
  - destruct (_new_game_state w (NewGameRequest.difficulty req)) as [e|gs] eqn:Hn.
    + by rewrite (api_new_error _ _ _ _ Hn).
    + rewrite (api_new_ok _ _ _ _ Hn). simpl.
      apply new_game_state_lives in Hn.
      split; [apply lives_ok_insert; [done|lia]|].
      intros r [= <-]. rewrite response_lives. lia.
  - by apply api_guess_lives_ok.
  - destruct (_new_game_state w
                (restart_difficulty req (g !! RestartRequest.game_id req)))
      as [e|gs] eqn:Hn.
    + by rewrite (api_restart_error _ _ _ _ Hn).
    + rewrite (api_restart_ok _ _ _ _ Hn). simpl.
      apply new_game_state_lives in Hn.
      split; [apply lives_ok_insert; [done|lia]|].
      intros r [= <-]. rewrite response_lives. lia.
Qed.

Lemma run_ops_lives_ok ops g :
  lives_ok g → lives_ok (run_ops ops g).1 ∧ outputs_ok (run_ops ops g).2.
Proof.
  revert g. induction ops as [|o ops IH]; intros g Hg.
  { split; [done | constructor]. }
  cbn [run_ops]. destruct (run_op_lives_ok o g Hg) as [Hg1 Hout].
  destruct (run_op o g) as [g1 out]. simpl in Hg1, Hout.
  destruct (IH g1 Hg1) as [Hg2 Houts].
  destruct (run_ops ops g1) as [g2 outs]. simpl in *.
  split; [done|]. by constructor.
Qed.

End all_paths.

(** * The claims *)

(** C1. [compute_status] is the reference projection: the masked string is
    [masked_ref] (each position of the secret shows its character when the
    one-letter string is in the guessed set and ["_"] otherwise, one space
    between neighbours); [wrong] is the one strictly ascending list of the
    guessed letters that occur nowhere in the secret; [won] holds exactly
    when every letter of the secret is guessed; [lost] holds exactly when
    [lives <= 0]; neither flag depends on the input of the other, and both
    are true together when both conditions hold. *)
Theorem compute_status_reference (secret : string) (G : gset string) (lives : Z) :
  let st := compute_status secret G lives in
  GameStatus.masked st = masked_ref secret G
  ∧ (∀ i c, String.get i secret = Some c →
            String.get (2 * i) (GameStatus.masked st) = Some (reveal G c))
  ∧ (∀ i, (S i < String.length secret)%nat →
          String.get (2 * i + 1) (GameStatus.masked st) = Some " "%char)
  ∧ String.length (GameStatus.masked st) = (2 * String.length secret - 1)%nat
  ∧ (letters_only G →
     is_wrong_list secret G (GameStatus.wrong st)
     ∧ ∀ l, is_wrong_list secret G l → l = GameStatus.wrong st)
  ∧ (GameStatus.won st = true ↔ ∀ c, c ∈ Py.chars secret → Py.str1 c ∈ G)
  ∧ (GameStatus.lost st = true ↔ lives <= 0)
  ∧ GameStatus.lives st = lives
  ∧ (∀ lives', GameStatus.won (compute_status secret G lives') = GameStatus.won st)
  ∧ (∀ secret' G',
       GameStatus.lost (compute_status secret' G' lives) = GameStatus.lost st)
  ∧ ((∀ c, c ∈ Py.chars secret → Py.str1 c ∈ G) → lives <= 0 →
     GameStatus.won st = true ∧ GameStatus.lost st = true).
Proof.
  intros st.
  assert (Hm : GameStatus.masked st = masked_ref secret G)
    by apply mask_word_ref.
  split_and!.
  - done.
  - intros i c Hi. rewrite Hm. by apply masked_ref_letter.
  - intros i Hi. rewrite Hm. by apply masked_ref_space.
  - rewrite Hm. apply masked_ref_length.
  - intros HG.
    pose proof (compute_status_wrong secret G lives HG) as Hw.
    split; [done|]. intros l [Hs Hl]. destruct Hw as [Hs' Hl'].
    subst st. apply strict_sorted_ext; [done..|]. intros g. by rewrite Hl, Hl'.
  - apply compute_status_won.
  - apply compute_status_lost.
  - done.
  - done.
  - done.
  - intros Hall Hl. split; [by apply compute_status_won | by apply compute_status_lost].
Qed.

Lemma compute_status_reference_witness :
  letters_only {[ "c"; "a"; "t"; "x" ]}
  ∧ compute_status "cat" {[ "c"; "a"; "t"; "x" ]} 0
    = GameStatus.mk "c a t" ["x"] 0 true true
  ∧ is_wrong_list "cat" {[ "c"; "a"; "t"; "x" ]} ["x"].
Proof.
  assert (H : letters_only {[ "c"; "a"; "t"; "x" ]}).
  { apply (bool_decide_unpack _). vm_compute. exact I. }
  split; [exact H|]. split; [vm_compute; reflexivity|].
  exact (proj1 (proj1 (proj2 (proj2 (proj2 (proj2
    (compute_status_reference "cat" {[ "c"; "a"; "t"; "x" ]} 0))))) H)).
Defined.

(** C2. Lives are never negative at an observation point: from a store
    whose sessions all have [lives >= 0] (the empty store of a fresh process
    is one), any run of requests ends in such a store and every status
    returned on the way shows [lives >= 0].  On the way there: a session
    with [lives <= 0] is not in progress and a guess leaves it as it is; a
    wrong new letter on a session in progress stores [lives - 1], which is
    not negative there; a wrong word stores [max 0 (lives - 2)]. *)
Theorem lives_never_negative (ops : list Op) (g : Games) :
  lives_ok g →
  lives_ok (run_ops ops g).1
  ∧ outputs_ok (run_ops ops g).2
  ∧ lives_ok (run_ops ops ∅).1
  ∧ outputs_ok (run_ops ops ∅).2
  ∧ (∀ req gs, g !! GuessRequest.game_id req = Some gs →
       GameState.lives gs <= 0 →
       derived_state gs ≠ IN_PROGRESS ∧ (api_guess req g).1 = g)
  ∧ (∀ req gs c, g !! GuessRequest.game_id req = Some gs →
       derived_state gs = IN_PROGRESS →
       Py.lower (Py.strip (GuessRequest.letter req)) = Py.str1 c →
       Py.chr_isalpha c = true →
       Py.str1 c ∉ GameState.guessed gs →
       c ∉ Py.chars (GameState.secret gs) →
       ∃ gs1, (api_guess req g).1 = <[GuessRequest.game_id req := gs1]> g
              ∧ GameState.lives gs1 = GameState.lives gs - 1
              ∧ 0 <= GameState.lives gs1)
  ∧ (∀ req gs, g !! GuessRequest.game_id req = Some gs →
       derived_state gs = IN_PROGRESS →
       2 <= Py.len (Py.lower (Py.strip (GuessRequest.letter req))) →
       Py.isalpha (Py.lower (Py.strip (GuessRequest.letter req))) = true →
       Py.lower (Py.strip (GuessRequest.letter req)) ≠ GameState.secret gs →
       ∃ gs1, (api_guess req g).1 = <[GuessRequest.game_id req := gs1]> g
              ∧ GameState.lives gs1 = Z.max 0 (GameState.lives gs - 2)).
Proof.
  intros Hg.
  assert (Hempty : lives_ok ∅) by (intros k gs; by rewrite lookup_empty).
  split_and!; try (by apply run_ops_lives_ok).
  - intros req gs Hgs Hl.
    assert (Hend : derived_state gs ≠ IN_PROGRESS).
    { intros Hrun%in_progress_lives. lia. }
    split; [done|].
    destruct (api_guess_cases g req)
      as [(e & _ & ->) | [(gs' & _ & ->) | (gs' & gs1 & Hgs' & Hrun & _)]];
      [done..|].
    rewrite Hgs in Hgs'. by injection Hgs' as <-.
  - intros req gs c Hgs Hrun Hraw Ha Hnin Hsec. eexists.
    rewrite (api_guess_letter_miss g req gs _ Hgs Hraw Hrun c eq_refl Ha Hnin Hsec).
    split_and!; [done..|]. simpl. apply in_progress_lives in Hrun. lia.
  - intros req gs Hgs Hrun Hlen Ha Hne. eexists.
    rewrite (api_guess_word_miss g req gs _ Hgs eq_refl Hrun Hlen Ha Hne).
    done.
Qed.

Lemma lives_never_negative_witness :
  lives_ok g_last
  ∧ (run_ops [OpGuess (GuessRequest.mk gid0 "x"); OpGuess (GuessRequest.mk gid0 "y")]
             g_last).1
    = {[ gid0 := GameState.mk normal "orchard" 0 {[ "o"; "z"; "x" ]} ]}
  ∧ lives_ok
      (run_ops [OpGuess (GuessRequest.mk gid0 "x"); OpGuess (GuessRequest.mk gid0 "y")]
               g_last).1.
Proof.
  assert (H : lives_ok g_last).
  { intros k gs. unfold g_last. rewrite lookup_singleton.
    case_decide; [|done]. intros [= <-]. simpl. lia. }
  split; [exact H|]. split; [vm_compute; reflexivity|].
  exact (proj1 (lives_never_negative
    [OpGuess (GuessRequest.mk gid0 "x"); OpGuess (GuessRequest.mk gid0 "y")]
    g_last H)).
Defined.

(** C3. A guess on a session that is won or lost changes nothing, whatever
    the input; when the input is not empty after normalization the route
    returns the current status of the session and raises nothing (an input
    that normalizes to the empty string is refused before the state is
    looked at). *)
Theorem guess_after_end_is_noop (g : Games) (req : GuessRequest.t)
    (gs : GameState.t) :
  g !! GuessRequest.game_id req = Some gs →
  derived_state gs ≠ IN_PROGRESS →
  (api_guess req g).1 = g
  ∧ (Py.truthy (Py.lower (Py.strip (GuessRequest.letter req))) = true →
     (api_guess req g).2 = inr (_response (GuessRequest.game_id req) gs)
     ∧ response_status (_response (GuessRequest.game_id req) gs) = status_of gs)
  ∧ (Py.truthy (Py.lower (Py.strip (GuessRequest.letter req))) = false →
     (api_guess req g).2 = inl (HTTPException 400 "Empty guess")).
Proof.
  intros Hgs Hend. split_and!.
  - destruct (Py.truthy (Py.lower (Py.strip (GuessRequest.letter req)))) eqn:Ht.
    + by rewrite (api_guess_ended g req gs _ Hgs eq_refl Ht Hend).
    + by rewrite (api_guess_empty g req gs _ Hgs eq_refl Ht).
  - intros Ht. by rewrite (api_guess_ended g req gs _ Hgs eq_refl Ht Hend).
  - intros Ht. by rewrite (api_guess_empty g req gs _ Hgs eq_refl Ht).
Qed.

Lemma guess_after_end_is_noop_witness :
  g_lost !! gid0 = Some gs_lost
  ∧ derived_state gs_lost = LOST
  ∧ (api_guess (GuessRequest.mk gid0 " Q ") g_lost).1 = g_lost.
Proof.
  assert (H1 : g_lost !! GuessRequest.game_id (GuessRequest.mk gid0 " Q ")
               = Some gs_lost) by reflexivity.
  assert (H2 : derived_state gs_lost = LOST) by (vm_compute; reflexivity).
  split; [exact H1|]. split; [exact H2|].
  refine (proj1 (guess_after_end_is_noop g_lost (GuessRequest.mk gid0 " Q ")
                   gs_lost H1 _)).
  rewrite H2. discriminate.
Defined.

(** C4. On a session in progress, a normalized alphabetic guess of two or
    more characters that equals the secret adds every letter of the secret
    to the guessed set and leaves the lives as they are, so that the
    returned status has [won] true; one that differs from the secret stores
    [max 0 (lives - 2)] as the lives. *)
Theorem word_guess (g : Games) (req : GuessRequest.t) (gs : GameState.t) :
  let raw := Py.lower (Py.strip (GuessRequest.letter req)) in
  let gid := GuessRequest.game_id req in
  g !! gid = Some gs →
  derived_state gs = IN_PROGRESS →
  2 <= Py.len raw →
  Py.isalpha raw = true →
  (raw = GameState.secret gs →
   ∃ gs1, api_guess req g = (<[gid := gs1]> g, inr (_response gid gs1))
          ∧ GameState.guessed gs1
            = GameState.guessed gs ∪ Py.set_of_str (GameState.secret gs)
          ∧ (∀ c, c ∈ Py.chars (GameState.secret gs) →
                  Py.str1 c ∈ GameState.guessed gs1)
          ∧ GameState.lives gs1 = GameState.lives gs
          ∧ GameState.secret gs1 = GameState.secret gs
          ∧ GameResponse.won (_response gid gs1) = true
          ∧ GameResponse.lives (_response gid gs1) = GameState.lives gs
          ∧ derived_state gs1 = WON)
  ∧ (raw ≠ GameState.secret gs →
     ∃ gs1, api_guess req g = (<[gid := gs1]> g, inr (_response gid gs1))
            ∧ GameState.lives gs1 = Z.max 0 (GameState.lives gs - 2)
            ∧ 0 <= GameState.lives gs1
            ∧ GameResponse.lives (_response gid gs1)
              = Z.max 0 (GameState.lives gs - 2)).
Proof.
  intros raw gid Hgs Hrun Hlen Ha. split.
  - intros Heq. eexists.
    split; [exact (api_guess_word_hit g req gs raw Hgs eq_refl Hrun Hlen Ha Heq)|].
    assert (Hall : ∀ c, c ∈ Py.chars (GameState.secret gs) →
              Py.str1 c ∈ GameState.guessed gs ∪ Py.set_of_str (GameState.secret gs)).
    { intros c Hc. apply elem_of_union_r, elem_of_set_of_str. eauto. }
    assert (Hwon : GameStatus.won
              (compute_status (GameState.secret gs)
                 (GameState.guessed gs ∪ Py.set_of_str (GameState.secret gs))
                 (GameState.lives gs)) = true)
      by by apply compute_status_won.
    split_and!; try done.
    unfold derived_state. cbn [GameState.set_guessed GameState.secret
      GameState.guessed GameState.lives]. by rewrite Hwon.
  - intros Hne. eexists.
    split; [exact (api_guess_word_miss g req gs raw Hgs eq_refl Hrun Hlen Ha Hne)|].
    simpl. split_and!; [done | lia | done].
Qed.

Lemma word_guess_witness :
  g_last !! gid0 = Some gs_last
  ∧ ∃ gs1, api_guess (GuessRequest.mk gid0 " Orange ") g_last
           = (<[gid0 := gs1]> g_last, inr (_response gid0 gs1))
           ∧ GameState.lives gs1 = 0.
Proof.
  assert (H1 : g_last !! GuessRequest.game_id (GuessRequest.mk gid0 " Orange ")
               = Some gs_last) by reflexivity.
  assert (H2 : derived_state gs_last = IN_PROGRESS) by (vm_compute; reflexivity).
  split; [exact H1|].
  destruct (word_guess g_last (GuessRequest.mk gid0 " Orange ") gs_last H1 H2)
    as [_ Hmiss].
  - vm_compute. discriminate.
  - vm_compute. reflexivity.
  - destruct Hmiss as (gs1 & Heq & Hl & _).
    + vm_compute. discriminate.
    + exists gs1. split; [exact Heq|]. rewrite Hl. reflexivity.
Defined.

(** C7. On a session in progress, guessing a single letter that is already
    in the guessed set changes nothing and returns the status the session
    had before the guess; and for any single-letter guess on any session,
    sending it a second time returns what the first returned and leaves the
    store as the first left it. *)
Theorem repeated_letter_idempotent (g : Games) (req : GuessRequest.t)
    (gs : GameState.t) (c : ascii) :
  let gid := GuessRequest.game_id req in
  g !! gid = Some gs →
  Py.lower (Py.strip (GuessRequest.letter req)) = Py.str1 c →
  Py.chr_isalpha c = true →
  (derived_state gs = IN_PROGRESS → Py.str1 c ∈ GameState.guessed gs →
   api_guess req g = (g, inr (_response gid gs))
   ∧ response_status (_response gid gs) = status_of gs)
  ∧ api_guess req (api_guess req g).1 = api_guess req g.
Proof.
  intros gid Hgs Hraw Ha.
  assert (Hrep : ∀ g' gs', g' !! gid = Some gs' →
            Py.str1 c ∈ GameState.guessed gs' →
            api_guess req g' = (g', inr (_response gid gs'))).
  { intros g' gs' Hgs' Hin.
    destruct (decide (derived_state gs' = IN_PROGRESS)) as [Hrun|Hend].
    - exact (api_guess_repeat g' req gs' _ Hgs' Hraw Hrun c eq_refl Ha Hin).
    - exact (api_guess_ended g' req gs' _ Hgs' Hraw eq_refl Hend). }
  split; [intros Hrun Hin; split; [by apply Hrep | done]|].
  assert (Hsame : ∀ out, api_guess req g = (g, out) →
            api_guess req (api_guess req g).1 = api_guess req g).
  { intros out Heq. by rewrite Heq. }
  destruct (decide (derived_state gs = IN_PROGRESS)) as [Hrun|Hend];
    [|exact (Hsame _ (api_guess_ended g req gs _ Hgs Hraw eq_refl Hend))].
  destruct (decide (Py.str1 c ∈ GameState.guessed gs)) as [Hin|Hnin];
    [exact (Hsame _ (Hrep g gs Hgs Hin))|].
  destruct (decide (c ∈ Py.chars (GameState.secret gs))) as [Hs|Hs].
  - rewrite (api_guess_letter_hit g req gs _ Hgs Hraw Hrun c eq_refl Ha Hnin Hs).
    cbn [fst]. apply Hrep; [by rewrite lookup_insert_eq|]. simpl. set_solver.
  - rewrite (api_guess_letter_miss g req gs _ Hgs Hraw Hrun c eq_refl Ha Hnin Hs).
    cbn [fst]. apply Hrep; [by rewrite lookup_insert_eq|]. simpl. set_solver.
Qed.

Lemma repeated_letter_idempotent_witness :
  g_last !! gid0 = Some gs_last
  ∧ api_guess (GuessRequest.mk gid0 "Z") g_last
    = (g_last, inr (_response gid0 gs_last)).
Proof.
  assert (H1 : g_last !! GuessRequest.game_id (GuessRequest.mk gid0 "Z")
               = Some gs_last) by reflexivity.
  split; [exact H1|].
  destruct (repeated_letter_idempotent g_last (GuessRequest.mk gid0 "Z")
              gs_last "z" H1) as [Hrep _].
  - vm_compute. reflexivity.
  - vm_compute. reflexivity.
  - apply Hrep.
    + vm_compute. reflexivity.
    + apply (bool_decide_unpack _). vm_compute. exact I.
Defined.

(** C8. A refused guess changes nothing.  An unknown identifier raises the
    404 error; on a known session an input that is empty after
    normalization raises the 400 "Empty guess" error; on a session in
    progress a single character that is no letter, and an input of two or
    more characters with a character that is no letter, raise their own 400
    errors; all four leave the store as it was, and so does every exception
    the route raises, which is one of these four. *)
Theorem guess_errors_atomic (g : Games) (req : GuessRequest.t) :
  let raw := Py.lower (Py.strip (GuessRequest.letter req)) in
  let gid := GuessRequest.game_id req in
  (g !! gid = None →
   api_guess req g = (g, inl (HTTPException 404 "Unknown game_id")))
  ∧ (∀ gs, g !! gid = Some gs → raw = "" →
           api_guess req g = (g, inl (HTTPException 400 "Empty guess")))
  ∧ (∀ gs c, g !! gid = Some gs → derived_state gs = IN_PROGRESS →
             raw = Py.str1 c → Py.chr_isalpha c = false →
             api_guess req g
             = (g, inl (HTTPException 400
                          "Invalid letter: must be a single A–Z character")))
  ∧ (∀ gs, g !! gid = Some gs → derived_state gs = IN_PROGRESS →
           2 <= Py.len raw → Py.isalpha raw = false →
           api_guess req g
           = (g, inl (HTTPException 400 "Invalid word: only letters allowed")))
  ∧ (∀ e, (api_guess req g).2 = inl e →
          (api_guess req g).1 = g ∧ e ∈ guess_errors
          ∧ (e = HTTPException 404 "Unknown game_id" ↔ g !! gid = None)).
Proof.
  intros raw gid. split_and!.
  - apply api_guess_unknown.
  - intros gs Hgs Hemp.
    apply (api_guess_empty g req gs raw Hgs eq_refl). by rewrite Hemp.
  - intros gs c Hgs Hrun Hc Ha.
    exact (api_guess_bad_letter g req gs raw Hgs eq_refl Hrun c Hc Ha).
  - intros gs Hgs Hrun Hlen Ha.
    exact (api_guess_bad_word g req gs raw Hgs eq_refl Hrun Hlen Ha).
  - intros e He.
    destruct (g !! gid) as [gs|] eqn:Hgs.
    + destruct (api_guess_cases g req)
        as [(e' & Hin & Heq) | [(gs' & _ & Heq) | (gs' & gs1 & _ & _ & Heq & _)]];
        rewrite Heq in He; simpl in He; [|done..].
      injection He as ->. rewrite Heq. split_and!; [done..|].
      split; [|done]. intros ->.
      destruct (Py.truthy raw) eqn:Ht.
      * destruct (decide (derived_state gs = IN_PROGRESS)) as [Hrun|Hend].
        -- destruct (Py.len raw =? 1) eqn:Hlen.
           ++ apply Z.eqb_eq, len_1 in Hlen as [c Hc].
              destruct (Py.chr_isalpha c) eqn:Ha.
              ** destruct (decide (raw ∈ GameState.guessed gs)) as [Hi|Hn].
                 { by rewrite (api_guess_repeat g req gs raw Hgs eq_refl Hrun c Hc Ha Hi) in Heq. }
                 destruct (decide (c ∈ Py.chars (GameState.secret gs))) as [Hs|Hs].
                 { by rewrite (api_guess_letter_hit g req gs raw Hgs eq_refl Hrun c Hc Ha Hn Hs) in Heq. }
                 { by rewrite (api_guess_letter_miss g req gs raw Hgs eq_refl Hrun c Hc Ha Hn Hs) in Heq. }
              ** by rewrite (api_guess_bad_letter g req gs raw Hgs eq_refl Hrun c Hc Ha) in Heq.
           ++ pose proof (not_letter_is_word raw Ht Hlen) as H2.
              destruct (Py.isalpha raw) eqn:Ha.
              ** destruct (decide (raw = GameState.secret gs)) as [Hs|Hs].
                 { by rewrite (api_guess_word_hit g req gs raw Hgs eq_refl Hrun H2 Ha Hs) in Heq. }
                 { by rewrite (api_guess_word_miss g req gs raw Hgs eq_refl Hrun H2 Ha Hs) in Heq. }
              ** by rewrite (api_guess_bad_word g req gs raw Hgs eq_refl Hrun H2 Ha) in Heq.
        -- by rewrite (api_guess_ended g req gs raw Hgs eq_refl Ht Hend) in Heq.
      * by rewrite (api_guess_empty g req gs raw Hgs eq_refl Ht) in Heq.
    + rewrite (api_guess_unknown g req Hgs) in He |- *. simpl in *.
      injection He as <-. split_and!; [done | set_solver | done].
Qed.

Lemma guess_errors_atomic_witness :
  g0 !! "ffffffffffff4fff8fffffffffffffff" = None
  ∧ api_guess (GuessRequest.mk "ffffffffffff4fff8fffffffffffffff" "a") g0
    = (g0, inl (HTTPException 404 "Unknown game_id"))
  ∧ api_guess (GuessRequest.mk gid0 " 7 ") g0
    = (g0, inl (HTTPException 400
                  "Invalid letter: must be a single A–Z character")).
Proof.
  assert (H1 : g0 !! GuessRequest.game_id
                 (GuessRequest.mk "ffffffffffff4fff8fffffffffffffff" "a") = None)
    by reflexivity.
  split; [exact H1|]. split.
  - exact (proj1 (guess_errors_atomic g0
             (GuessRequest.mk "ffffffffffff4fff8fffffffffffffff" "a")) H1).
  - refine (proj1 (proj2 (proj2 (guess_errors_atomic g0
             (GuessRequest.mk gid0 " 7 ")))) gs0 "7"%char _ _ _ _);
      vm_compute; reflexivity.
Defined.

(** C10. On a session in progress, an alphabetic guess of two or more
    characters that differs from the secret writes the lives of that session
    and nothing else: secret, difficulty and guessed set are as before,
    every other session is as before, and the returned masked string and
    wrong-letter list are those of the status before the guess. *)
Theorem wrong_word_frame (g : Games) (req : GuessRequest.t) (gs : GameState.t) :
  let raw := Py.lower (Py.strip (GuessRequest.letter req)) in
  let gid := GuessRequest.game_id req in
  g !! gid = Some gs →
  derived_state gs = IN_PROGRESS →
  2 <= Py.len raw →
  Py.isalpha raw = true →
  raw ≠ GameState.secret gs →
  ∃ gs1 r,
    api_guess req g = (<[gid := gs1]> g, inr r)
    ∧ r = _response gid gs1
    ∧ GameState.secret gs1 = GameState.secret gs
    ∧ GameState.difficulty gs1 = GameState.difficulty gs
    ∧ GameState.guessed gs1 = GameState.guessed gs
    ∧ (∀ k, k ≠ gid → (api_guess req g).1 !! k = g !! k)
    ∧ GameResponse.masked r = GameStatus.masked (status_of gs)
    ∧ GameResponse.wrong r = GameStatus.wrong (status_of gs)
    ∧ GameResponse.game_id r = gid.
Proof.
  intros raw gid Hgs Hrun Hlen Ha Hne.
  pose proof (api_guess_word_miss g req gs raw Hgs eq_refl Hrun Hlen Ha Hne) as Heq.
  cbn zeta in Heq. do 2 eexists. split; [exact Heq|].
  split_and!; try done.
  intros k Hk. rewrite Heq. cbn [fst]. by rewrite lookup_insert_ne.
Qed.

Lemma wrong_word_frame_witness :
  g0 !! gid0 = Some gs0
  ∧ ∃ gs1 r, api_guess (GuessRequest.mk gid0 "Banana") g0
             = (<[gid0 := gs1]> g0, inr r)
             ∧ GameState.guessed gs1 = GameState.guessed gs0.
Proof.
  assert (H1 : g0 !! GuessRequest.game_id (GuessRequest.mk gid0 "Banana")
               = Some gs0) by reflexivity.
  split; [exact H1|].
  destruct (wrong_word_frame g0 (GuessRequest.mk gid0 "Banana") gs0 H1)
    as (gs1 & r & Heq & _ & _ & _ & Hg & _).
  - vm_compute. reflexivity.
  - vm_compute. discriminate.
  - vm_compute. reflexivity.
  - vm_compute. discriminate.
  - exists gs1, r. split; [exact Heq | exact Hg].
Defined.

(** C5, as the specification states it, fails twice on the code: with no
    word list on disk the restart of an unknown identifier raises
    [FileNotFoundError]; and the identifier that [uuid4] returns is used as
    it comes, so that it can be the one supplied. *)
Lemma restart_unknown_counterexample :
  (∅ : Games) !! gid0 = None
  ∧ api_restart w_nofiles (RestartRequest.mk gid0 None) ∅
    = (∅, inl FileNotFoundError)
  ∧ api_restart w0 (RestartRequest.mk gid0 None) ∅
    = ({[ gid0 := gs0 ]}, inr (_response gid0 gs0))
  ∧ GameResponse.game_id (_response gid0 gs0) = gid0.
Proof. split_and!; vm_compute; reflexivity. Qed.

(** C5, amended.  Restart never raises the not-found error.  With [d] the
    requested difficulty, or else the one of the session stored under the
    identifier, or else normal: when creating a session of difficulty [d]
    succeeds, the fresh session (no guessed letter, the lives of the tier) is
    stored under the supplied identifier if it was present and under the
    value of [uuid4().hex] if not, and its status is returned; when creation
    raises (no word list, or none left after the filter) the exception goes
    to the caller and the store is unchanged. *)
Theorem restart_session (w : World) (req : RestartRequest.t) (g : Games) :
  let gid := RestartRequest.game_id req in
  let prev := g !! gid in
  let d := restart_difficulty req prev in
  let key := restart_key w req prev in
  d = default (from_option GameState.difficulty normal prev)
              (RestartRequest.difficulty req)
  ∧ (prev = None → key = uuid4_hex w)
  ∧ (is_Some prev → key = gid)
  ∧ (∀ gs, _new_game_state w d = inr gs →
       api_restart w req g = (<[key := gs]> g, inr (_response key gs))
       ∧ GameState.difficulty gs = d
       ∧ GameState.guessed gs = ∅
       ∧ GameState.lives gs = cfg_lives (tier_cfg d)
       ∧ GameResponse.game_id (_response key gs) = key)
  ∧ (∀ e, _new_game_state w d = inl e →
       api_restart w req g = (g, inl e)
       ∧ (e = FileNotFoundError ∨ e = AssertionError))
  ∧ (∀ lines, fs w !! file (tier_cfg d) = Some lines →
       word_source_ref (tier_cfg d) lines ≠ [] →
       ∃ gs, _new_game_state w d = inr gs)
  ∧ (∀ e, (api_restart w req g).2 = inl e → ∀ code detail,
       e ≠ HTTPException code detail).
Proof.
  intros gid prev d key.
  assert (Herr : ∀ e, _new_game_state w d = inl e →
            api_restart w req g = (g, inl e)
            ∧ (e = FileNotFoundError ∨ e = AssertionError)).
  { intros e He. split; [by apply api_restart_error|].
    apply new_game_state_error in He. tauto. }
  split_and!.
  - unfold d, restart_difficulty.
    by destruct (RestartRequest.difficulty req), prev.
  - unfold key. by intros ->.
  - unfold key. by intros [p ->].
  - intros gs Hn. split; [by apply api_restart_ok|].
    apply new_game_state_fresh in Hn as (? & ? & ? & _). done.
  - done.
  - intros lines Hf Hne. rewrite new_game_state_eq, Hf.
    destruct (choose_secret_nonempty (rand w) _ Hne) as [secret ->]. eauto.
  - intros e He code detail ->.
    destruct (_new_game_state w d) as [e'|gs] eqn:Hn.
    + destruct (Herr e' eq_refl) as [Heq Hcase]. rewrite Heq in He.
      injection He as ->. destruct Hcase; done.
    + unfold d, prev in Hn. rewrite (api_restart_ok _ _ _ _ Hn) in He. done.
Qed.

Lemma restart_session_witness :
  _new_game_state w0 normal = inr gs0
  ∧ api_restart w0 (RestartRequest.mk "ffffffffffff4fff8fffffffffffffff" None) g_lost
    = (<[gid0 := gs0]> g_lost, inr (_response gid0 gs0)).
Proof.
  assert (H : _new_game_state w0 normal = inr gs0) by (vm_compute; reflexivity).
  split; [exact H|].
  exact (proj1 (proj1 (proj2 (proj2 (proj2 (restart_session w0
     (RestartRequest.mk "ffffffffffff4fff8fffffffffffffff" None) g_lost)))) gs0 H)).
Defined.

(** C6, as the specification states it, fails on the code: a lowercase
    alphabetic word of one hundred letters does not pass the filter of the
    hard tier, whose upper bound is 99. *)
Lemma hard_tier_counterexample :
  Py.isalpha w100 = true
  ∧ is_lowercase w100 = true
  ∧ 7 <= Py.len w100
  ∧ accepted (tier_cfg hard) w100 = false
  ∧ load_words {[ "words_hard.txt" := [w100] ]} "hard" = inr [].
Proof. split_and!; vm_compute; (reflexivity || discriminate). Qed.

(** C6, amended.  The table has exactly three tiers: easy takes lengths 5
    to 6 and starts with 10 lives, normal takes 6 to 8 with 7 lives, hard
    takes 7 to 99 with 5 lives; and for each tier a lowercase alphabetic
    word passes the length filter of [load_words] exactly when its length is
    within the bounds of the tier. *)
Theorem difficulty_tiers :
  (∀ name cfg,
     DIFFICULTY !! name = Some cfg ↔
       (name = "easy" ∧ cfg = mkCfg 5 6 10 "words_easy.txt")
       ∨ (name = "normal" ∧ cfg = mkCfg 6 8 7 "words_normal.txt")
       ∨ (name = "hard" ∧ cfg = mkCfg 7 99 5 "words_hard.txt"))
  ∧ (∀ d w, Py.isalpha w = true → is_lowercase w = true →
       let cfg := tier_cfg d in
       DIFFICULTY !! Difficulty_str d = Some cfg
       ∧ (min_len cfg <= Py.len w <= max_len cfg →
          load_words {[ file cfg := [w] ]} (Difficulty_str d) = inr [w])
       ∧ (¬ (min_len cfg <= Py.len w <= max_len cfg) →
          load_words {[ file cfg := [w] ]} (Difficulty_str d) = inr [])).
Proof.
  split; [apply DIFFICULTY_lookup|].
  intros d w Ha Hl cfg.
  assert (Hload : load_words {[ file cfg := [w] ]} (Difficulty_str d)
                  = inr (if accepted cfg w then [w] else [])).
  { rewrite (load_words_ok _ _ cfg [w] (DIFFICULTY_literal d))
      by apply lookup_singleton_eq.
    unfold word_source_ref. rewrite candidates_cons. cbn zeta.
    rewrite (strip_alpha w Ha), (lowercase_lower_id w Hl).
    by destruct (accepted cfg w). }
  split_and!.
  - apply DIFFICULTY_literal.
  - intros Hb. rewrite Hload.
    by rewrite (proj2 (accepted_iff cfg w) (conj Ha Hb)).
  - intros Hb. rewrite Hload.
    destruct (accepted cfg w) eqn:Hacc; [|done].
    apply accepted_iff in Hacc as [_ ?]. done.
Qed.

Lemma difficulty_tiers_witness :
  Py.isalpha "orchard" = true
  ∧ load_words {[ "words_hard.txt" := ["orchard"] ]} "hard" = inr ["orchard"].
Proof.
  assert (H1 : Py.isalpha "orchard" = true) by reflexivity.
  assert (H2 : is_lowercase "orchard" = true) by reflexivity.
  split; [exact H1|].
  refine (proj1 (proj2 (proj2 difficulty_tiers hard "orchard" H1 H2)) _).
  vm_compute. split; discriminate.
Defined.

(** C9. For a name that is no key of the table [load_words] raises
    [ValueError]; for a tier whose file is absent it raises
    [FileNotFoundError]; otherwise it returns, raising nothing, the first
    occurrences of the lowercased stripped lines that are alphabetic and of
    a length within the bounds of the tier: every returned word is
    alphabetic, lowercase and within the bounds, no word is returned twice,
    every line that passes the filter is represented, and the order is the
    one of the file. *)
Theorem word_source_contract (fs : FileSystem) (name : string) :
  (name ≠ "easy" → name ≠ "normal" → name ≠ "hard" →
   load_words fs name = inl ValueError)
  ∧ (∀ cfg, DIFFICULTY !! name = Some cfg →
       (fs !! file cfg = None → load_words fs name = inl FileNotFoundError)
       ∧ (∀ lines, fs !! file cfg = Some lines →
            ∃ ws, load_words fs name = inr ws
              ∧ ws = word_source_ref cfg lines
              ∧ NoDup ws
              ∧ ws `sublist_of` ((λ line, Py.lower (Py.strip line)) <$> lines)
              ∧ (∀ w, w ∈ ws →
                   Py.isalpha w = true
                   ∧ is_lowercase w = true
                   ∧ Py.lower w = w
                   ∧ w ≠ ""
                   ∧ min_len cfg <= Py.len w <= max_len cfg)
              ∧ (∀ w, w ∈ ws ↔
                   Py.isalpha w = true
                   ∧ min_len cfg <= Py.len w <= max_len cfg
                   ∧ ∃ line, line ∈ lines ∧ w = Py.lower (Py.strip line)))).
Proof.
  split.
  - intros He Hn Hh. unfold load_words.
    destruct (DIFFICULTY !! name) as [cfg|] eqn:Hd; [|done].
    apply DIFFICULTY_lookup in Hd as [[? _]|[[? _]|[? _]]]; done.
  - intros cfg Hd. split.
    + intros Hf. unfold load_words. by rewrite Hd, Hf.
    + intros lines Hf. exists (word_source_ref cfg lines).
      split_and!.
      * by apply load_words_ok.
      * done.
      * apply NoDup_first_occurrences.
      * unfold word_source_ref, candidates.
        etrans; [apply first_occurrences_sublist | apply sublist_filter].
      * intros w (Hacc & line & _ & ->)%elem_of_word_source_ref.
        apply accepted_iff in Hacc as [Ha Hb].
        split_and!;
          [done | apply lower_is_lowercase | apply lower_lower | | apply Hb..].
        intros Hemp. by rewrite Hemp in Ha.
      * intros w. rewrite elem_of_word_source_ref, accepted_iff. tauto.
Qed.

Lemma word_source_contract_witness :
  DIFFICULTY !! "normal" = Some (tier_cfg normal)
  ∧ load_words fs0 "normal" = inr ["banana"; "orchard"]
  ∧ ∃ ws, load_words fs0 "normal" = inr ws ∧ NoDup ws.
Proof.
  assert (H1 : DIFFICULTY !! "normal" = Some (tier_cfg normal)) by reflexivity.
  split; [exact H1|]. split; [vm_compute; reflexivity|].
  destruct (proj2 (proj2 (word_source_contract fs0 "normal") (tier_cfg normal) H1)
              (fs0 !!! "words_normal.txt"))
    as (ws & Heq & _ & Hnd & _).
  - vm_compute. reflexivity.
  - exists ws. split; [exact Heq | exact Hnd].
Defined.

(** * Further properties of the code *)

(** ** Normalization *)

Lemma lower_space c : Py.chr_isspace (Py.chr_lower c) = Py.chr_isspace c.
Proof. destruct c as [[] [] [] [] [] [] [] []]; vm_compute; congruence. Qed.




Lemma lstrip_lower s : Py.lstrip (Py.lower s) = Py.lower (Py.lstrip s).
Proof.
  induction s as [|c s IH]; [done|]. simpl. rewrite lower_space.
  by destruct (Py.chr_isspace c).
Qed.

Lemma rstrip_lower s : Py.rstrip (Py.lower s) = Py.lower (Py.rstrip s).
Proof.
  induction s as [|c s IH]; [done|]. simpl. rewrite IH, lower_space.
  destruct (Py.rstrip s); simpl; [by destruct (Py.chr_isspace c)|done].
Qed.

Lemma strip_lower s : Py.strip (Py.lower s) = Py.lower (Py.strip s).
Proof. unfold Py.strip. by rewrite lstrip_lower, rstrip_lower. Qed.

Lemma rstrip_rstrip s : Py.rstrip (Py.rstrip s) = Py.rstrip s.
Proof.
  induction s as [|c s IH]; [done|]. simpl.
  destruct (Py.rstrip s) as [|c' r] eqn:Hr.
  - destruct (Py.chr_isspace c) eqn:Hc; [done|]. simpl. by rewrite Hc.
  - change (Py.rstrip (String c (String c' r)))
      with (match Py.rstrip (String c' r) with
            | EmptyString => if Py.chr_isspace c then EmptyString else Py.str1 c
            | r0 => String c r0
            end).
    by rewrite IH.
Qed.

(** [rstrip] keeps a first character that is no white space. *)
Lemma rstrip_head c s :
  Py.chr_isspace c = false → ∃ r, Py.rstrip (String c s) = String c r.
Proof.
  intros Hc. simpl. destruct (Py.rstrip s); [rewrite Hc|]; eauto.
Qed.

Lemma lstrip_head s :
  Py.lstrip s = EmptyString
  ∨ ∃ c r, Py.lstrip s = String c r ∧ Py.chr_isspace c = false.
Proof.
  induction s as [|c s IH]; [by left|]. simpl.
  destruct (Py.chr_isspace c) eqn:Hc; [done|]. right. eauto.
Qed.

Lemma strip_strip s : Py.strip (Py.strip s) = Py.strip s.
Proof.
  unfold Py.strip.
  assert (Hl : Py.lstrip (Py.rstrip (Py.lstrip s)) = Py.rstrip (Py.lstrip s)).
  { destruct (lstrip_head s) as [-> | (c & r & -> & Hc)]; [done|].
    destruct (rstrip_head c r Hc) as [r' ->]. simpl. by rewrite Hc. }
  by rewrite Hl, rstrip_rstrip.
Qed.

Lemma normalize_idem s :
  Py.lower (Py.strip (Py.lower (Py.strip s))) = Py.lower (Py.strip s).
Proof. by rewrite strip_lower, strip_strip, lower_lower. Qed.

(** The ends of a stripped string are no white space. *)
Lemma strip_ends s :
  Py.lstrip (Py.strip s) = Py.strip s ∧ Py.rstrip (Py.strip s) = Py.strip s.
Proof.
  split.
  - unfold Py.strip.
    destruct (lstrip_head s) as [-> | (c & r & -> & Hc)]; [done|].
    destruct (rstrip_head c r Hc) as [r' ->]. simpl. by rewrite Hc.
  - unfold Py.strip. apply rstrip_rstrip.
Qed.

(** ** The helpers of utils.py *)

(** X1. [choose_secret] fails the assertion on the empty list and only
    there; on any other list it returns the element at the drawn index,
    which is an element of the list, and every element of the list is
    returned for some draw. *)
Theorem choose_secret_total (words : list string) :
  (words = [] → ∀ r, choose_secret r words = inl AssertionError)
  ∧ (words ≠ [] → ∀ r, ∃ s,
       choose_secret r words = inr s
       ∧ words !! (r mod length words)%nat = Some s
       ∧ s ∈ words)
  ∧ (∀ s, s ∈ words → ∃ r, choose_secret r words = inr s).
Proof.
  split_and!.
  - by intros ->.
  - intros Hne r. destruct words as [|w ws]; [done|].
    eexists. split; [done|].
    assert (Hlt : (r mod length (w :: ws) < length (w :: ws))%nat)
      by (apply Nat.mod_upper_bound; done).
    split.
    + destruct (nth_lookup_or_length (w :: ws) (r mod length (w :: ws)) w);
        [done | lia].
    + apply list_elem_of_In. by apply nth_In.
  - intros s [i Hi]%list_elem_of_lookup. exists i.
    destruct words as [|w ws]; [done|]. unfold choose_secret. f_equal.
    pose proof (lookup_lt_Some _ _ _ Hi) as Hlt.
    rewrite Nat.mod_small by done.
    by apply nth_lookup_Some.
Qed.

Lemma choose_secret_total_witness :
  ∃ s, choose_secret 7 ["a"; "b"; "c"] = inr s ∧ s ∈ ["a"; "b"; "c"].
Proof.
  destruct (proj1 (proj2 (choose_secret_total ["a"; "b"; "c"])) ltac:(discriminate) 7%nat)
    as (s & Hs & _ & Hin).
  exists s. split; [exact Hs | exact Hin].
Defined.







(** X4. Normalization is idempotent, [_normalize_letter] of app.py and
    [normalize_guess] of utils.py are the same function, a normalized text
    has no white space at its ends and no character with a distinct
    lowercase form, and the guess route reads the submitted text through
    its normalization only: a text and its normalized form are the same
    guess. *)
Theorem guess_reads_normalized (g : Games) (gid l : string) :
  normalize_guess (normalize_guess l) = normalize_guess l
  ∧ _normalize_letter l = normalize_guess l
  ∧ Py.strip (normalize_guess l) = normalize_guess l
  ∧ is_lowercase (normalize_guess l) = true
  ∧ api_guess (GuessRequest.mk gid (normalize_guess l)) g
    = api_guess (GuessRequest.mk gid l) g.
Proof.
  split_and!.
  - apply normalize_idem.
  - done.
  - unfold normalize_guess. by rewrite strip_lower, strip_strip.
  - apply lower_is_lowercase.
  - unfold api_guess, normalize_guess.
    cbn [GuessRequest.letter GuessRequest.game_id].
    by rewrite normalize_idem.
Qed.

(** ** The word source and session creation *)

Lemma filter_all {A} (P : A → Prop) `{∀ x, Decision (P x)} (l : list A) :
  (∀ x, x ∈ l → P x) → filter P l = l.
Proof.
  induction l as [|x l IH]; intros Hall; [done|].
  rewrite filter_cons_True by (apply Hall; left).
  f_equal. apply IH. intros y Hy. apply Hall. by right.
Qed.

Lemma first_occurrences_NoDup (l : list string) :
  NoDup l → first_occurrences l = l.
Proof.
  induction 1 as [|x l Hx Hnd IH]; [done|]. simpl. rewrite IH. f_equal.
  apply filter_all. intros y Hy ->. done.
Qed.

Lemma word_source_ref_fixed cfg lines :
  word_source_ref cfg (word_source_ref cfg lines) = word_source_ref cfg lines.
Proof.
  set (ws := word_source_ref cfg lines).
  assert (Hws : ∀ w, w ∈ ws → accepted cfg w = true ∧ Py.lower (Py.strip w) = w).
  { intros w (Hacc & line & _ & ->)%elem_of_word_source_ref.
    split; [done|]. apply normalize_idem. }
  unfold word_source_ref at 1. unfold candidates.
  assert (Hmap : (λ line, Py.lower (Py.strip line)) <$> ws = ws).
  { clear -Hws. induction ws as [|w ws IH]; [done|]. rewrite fmap_cons.
    rewrite (proj2 (Hws w ltac:(left))). f_equal. apply IH.
    intros v Hv. apply Hws. by right. }
  rewrite Hmap, filter_all by (intros w Hw; by apply Hws).
  apply first_occurrences_NoDup, NoDup_first_occurrences.
Qed.

(** X5. The list [load_words] returns is a fixed point of [load_words]:
    written back, one word per line, as the word list of the tier, it is
    read again as the same list, in the same order. *)
Theorem load_words_fixed_point (fs : FileSystem) (name : string) (cfg : Cfg)
    (ws : list string) :
  DIFFICULTY !! name = Some cfg →
  load_words fs name = inr ws →
  load_words (<[file cfg := ws]> fs) name = inr ws.
Proof.
  intros Hd Hload.
  destruct (fs !! file cfg) as [lines|] eqn:Hf.
  - rewrite (load_words_ok _ _ _ _ Hd Hf) in Hload. injection Hload as <-.
    rewrite (load_words_ok _ _ cfg (word_source_ref cfg lines) Hd)
      by apply lookup_insert_eq.
    by rewrite word_source_ref_fixed.
  - unfold load_words in Hload. by rewrite Hd, Hf in Hload.
Qed.

Lemma load_words_fixed_point_witness :
  load_words fs0 "normal" = inr ["banana"; "orchard"]
  ∧ load_words (<["words_normal.txt" := ["banana"; "orchard"]]> fs0) "normal"
    = inr ["banana"; "orchard"].
Proof.
  assert (H : load_words fs0 "normal" = inr ["banana"; "orchard"])
    by (vm_compute; reflexivity).
  split; [exact H|].
  exact (load_words_fixed_point fs0 "normal" (tier_cfg normal)
           ["banana"; "orchard"] eq_refl H).
Defined.

Lemma fresh_in_progress (d : Difficulty) (secret : string) :
  Py.isalpha secret = true →
  derived_state (GameState.mk d secret (cfg_lives (tier_cfg d)) ∅) = IN_PROGRESS.
Proof.
  intros Ha. unfold derived_state.
  destruct (GameStatus.won _) eqn:Hw.
  - cbn [GameState.secret GameState.guessed GameState.lives] in Hw.
    rewrite compute_status_won in Hw. destruct secret as [|c s]; [done|].
    specialize (Hw c ltac:(left)). by apply not_elem_of_empty in Hw.
  - destruct (GameStatus.lost _) eqn:Hl; [|done].
    cbn [GameState.secret GameState.guessed GameState.lives] in Hl.
    rewrite compute_status_lost in Hl. destruct d; simpl in Hl; lia.
Qed.

Lemma fresh_session (w : World) (d : Difficulty) (gs : GameState.t) :
  _new_game_state w d = inr gs →
  GameState.difficulty gs = d
  ∧ GameState.lives gs = cfg_lives (tier_cfg d)
  ∧ GameState.guessed gs = ∅
  ∧ Py.isalpha (GameState.secret gs) = true
  ∧ is_lowercase (GameState.secret gs) = true
  ∧ min_len (tier_cfg d) <= Py.len (GameState.secret gs) <= max_len (tier_cfg d)
  ∧ derived_state gs = IN_PROGRESS.
Proof.
  intros Hgs.
  pose proof (new_game_state_fresh w d gs Hgs)
    as (Hd & Hg & Hl & lines & Hf & Hsec).
  pose proof Hsec as (Hacc & line & _ & Hline)%elem_of_word_source_ref.
  apply accepted_iff in Hacc as [Ha Hb].
  split_and!; try done.
  - rewrite Hline. apply lower_is_lowercase.
  - apply Hb.
  - apply Hb.
  - destruct gs as [d' s' l' g']. simpl in *. subst.
    by apply fresh_in_progress.
Qed.

(** X6. [_new_game_state] succeeds exactly when the word list of the tier
    exists and has a line that passes the filter; it then returns a session
    of the requested difficulty whose secret is a word of the filtered list
    (alphabetic, lowercase, of a length within the bounds of the tier), with
    the lives of the tier and no guessed letter, and that session is in
    progress.  Otherwise it raises [FileNotFoundError] (no file) or
    [AssertionError] (no word left). *)
Theorem new_game_state_spec (w : World) (d : Difficulty) :
  let cfg := tier_cfg d in
  ((∃ gs, _new_game_state w d = inr gs) ↔
     ∃ lines line, fs w !! file cfg = Some lines ∧ line ∈ lines
                   ∧ accepted cfg (normalize_guess line) = true)
  ∧ (∀ gs, _new_game_state w d = inr gs →
       GameState.difficulty gs = d
       ∧ GameState.lives gs = cfg_lives cfg
       ∧ GameState.guessed gs = ∅
       ∧ Py.isalpha (GameState.secret gs) = true
       ∧ is_lowercase (GameState.secret gs) = true
       ∧ min_len cfg <= Py.len (GameState.secret gs) <= max_len cfg
       ∧ load_words (fs w) (Difficulty_str d)
         = inr (default [] (word_source_ref cfg <$> fs w !! file cfg))
       ∧ GameState.secret gs
         ∈ default [] (word_source_ref cfg <$> fs w !! file cfg)
       ∧ derived_state gs = IN_PROGRESS)
  ∧ (fs w !! file cfg = None → _new_game_state w d = inl FileNotFoundError)
  ∧ (∀ lines, fs w !! file cfg = Some lines → word_source_ref cfg lines = [] →
       _new_game_state w d = inl AssertionError).
Proof.
  intros cfg. split_and!.
  - rewrite new_game_state_eq. fold cfg. split.
    + intros [gs Hgs]. destruct (fs w !! file cfg) as [lines|]; [|done].
      destruct (choose_secret _ _) as [|secret] eqn:Hc; [done|].
      apply choose_secret_elem, elem_of_word_source_ref in Hc
        as (Hacc & line & Hin & ->).
      by exists lines, line.
    + intros (lines & line & -> & Hin & Hacc).
      assert (Hne : word_source_ref cfg lines ≠ []).
      { intros He.
        assert (normalize_guess line ∈ word_source_ref cfg lines)
          by (apply elem_of_word_source_ref; eauto).
        rewrite He in *. by apply elem_of_nil in H. }
      destruct (choose_secret_nonempty (rand w) _ Hne) as [secret ->]. eauto.
  - intros gs Hgs.
    pose proof (new_game_state_fresh w d gs Hgs)
      as (_ & _ & _ & lines & Hf & Hsec).
    destruct (fresh_session w d gs Hgs) as (Hd & Hl & Hg & Ha & Hlo & Hb & Hrun).
    fold cfg in Hf, Hsec, Hl, Hb. rewrite Hf.
    cbn [fmap option_fmap option_map default].
    split_and!; try done; try apply Hb.
    by apply load_words_ok; [apply DIFFICULTY_literal|].
  - intros Hf. rewrite new_game_state_eq. fold cfg. by rewrite Hf.
  - intros lines Hf He. rewrite new_game_state_eq. fold cfg.
    by rewrite Hf, He.
Qed.

Lemma new_game_state_spec_witness :
  _new_game_state w0 normal = inr gs0 ∧ derived_state gs0 = IN_PROGRESS.
Proof.
  assert (H : _new_game_state w0 normal = inr gs0) by (vm_compute; reflexivity).
  split; [exact H|].
  apply (proj1 (proj2 (new_game_state_spec w0 normal)) gs0 H).
Defined.

(** ** The transitions of a session *)

Lemma all_chars_elem (p : ascii → bool) s c :
  Py.all_chars p s = true → c ∈ Py.chars s → p c = true.
Proof.
  induction s as [|c' s IH]; simpl; [by intros _ ?%elem_of_nil|].
  intros [Hc Hs]%andb_true_iff [->|Hin]%elem_of_cons; auto.
Qed.

Lemma api_guess_step (g : Games) (req : GuessRequest.t) :
  let gid := GuessRequest.game_id req in
  (api_guess req g).1 = g
  ∨ ∃ gs gs1, g !! gid = Some gs ∧ derived_state gs = IN_PROGRESS
              ∧ guess_step gs gs1
              ∧ api_guess req g = (<[gid := gs1]> g, inr (_response gid gs1)).
Proof.
  intros gid.
  destruct (g !! gid) as [gs|] eqn:Hgs;
    [|left; by rewrite api_guess_unknown].
  set (raw := Py.lower (Py.strip (GuessRequest.letter req))).
  destruct (Py.truthy raw) eqn:Ht;
    [|left; by rewrite (api_guess_empty g req gs raw Hgs eq_refl Ht)].
  destruct (decide (derived_state gs = IN_PROGRESS)) as [Hrun|Hend];
    [|left; by rewrite (api_guess_ended g req gs raw Hgs eq_refl Ht Hend)].
  destruct (Py.len raw =? 1) eqn:Hlen.
  - apply Z.eqb_eq, len_1 in Hlen as [c Hc].
    assert (Hup : Py.chr_isupper c = false).
    { pose proof (lower_is_lowercase (Py.strip (GuessRequest.letter req))) as Hl.
      fold raw in Hl. rewrite Hc in Hl. unfold is_lowercase in Hl. simpl in Hl.
      by destruct (Py.chr_isupper c). }
    destruct (Py.chr_isalpha c) eqn:Ha;
      [|left; by rewrite (api_guess_bad_letter g req gs raw Hgs eq_refl Hrun c Hc Ha)].
    destruct (decide (raw ∈ GameState.guessed gs)) as [Hin|Hnin];
      [left; by rewrite (api_guess_repeat g req gs raw Hgs eq_refl Hrun c Hc Ha Hin)|].
    right. exists gs.
    destruct (decide (c ∈ Py.chars (GameState.secret gs))) as [Hs|Hs].
    + eexists. split_and!; [done.. | |
        exact (api_guess_letter_hit g req gs raw Hgs eq_refl Hrun c Hc Ha Hnin Hs)].
      rewrite Hc in *. by constructor.
    + eexists. split_and!; [done.. | |
        exact (api_guess_letter_miss g req gs raw Hgs eq_refl Hrun c Hc Ha Hnin Hs)].
      rewrite Hc in *. by constructor.
  - pose proof (not_letter_is_word raw Ht Hlen) as H2.
    destruct (Py.isalpha raw) eqn:Ha;
      [|left; by rewrite (api_guess_bad_word g req gs raw Hgs eq_refl Hrun H2 Ha)].
    right. exists gs.
    destruct (decide (raw = GameState.secret gs)) as [Heq|Hne].
    + eexists. split_and!; [done.. | |
        exact (api_guess_word_hit g req gs raw Hgs eq_refl Hrun H2 Ha Heq)].
      constructor.
    + eexists. split_and!; [done.. | |
        exact (api_guess_word_miss g req gs raw Hgs eq_refl Hrun H2 Ha Hne)].
      constructor.
Qed.

(** The wrong letters of a guessed set, before sorting. *)
Lemma wrong_length secret (G : gset string) lives :
  length (GameStatus.wrong (compute_status secret G lives))
  = length (filter (λ ch, Py.contains ch secret = false) (elements G)).
Proof.
  cbn [compute_status GameStatus.wrong]. unfold Py.sorted.
  apply Permutation_length, merge_sort_Permutation.
Qed.

Lemma wrong_length_same secret (G G' : gset string) :
  (∀ x, Py.contains x secret = false → x ∈ G' ↔ x ∈ G) →
  length (filter (λ ch, Py.contains ch secret = false) (elements G'))
  = length (filter (λ ch, Py.contains ch secret = false) (elements G)).
Proof.
  intros H. apply Permutation_length, NoDup_Permutation.
  - apply NoDup_filter, NoDup_elements.
  - apply NoDup_filter, NoDup_elements.
  - intros x. rewrite !list_elem_of_filter, !elem_of_elements.
    split; intros [Hc Hx]; (split; [done|]); by apply (H x Hc).
Qed.

Lemma wrong_length_add secret (G : gset string) x :
  x ∉ G → Py.contains x secret = false →
  length (filter (λ ch, Py.contains ch secret = false) (elements ({[ x ]} ∪ G)))
  = S (length (filter (λ ch, Py.contains ch secret = false) (elements G))).
Proof.
  intros Hx Hc.
  change (S (length (filter (λ ch, Py.contains ch secret = false) (elements G))))
    with (length (x :: filter (λ ch, Py.contains ch secret = false) (elements G))).
  apply Permutation_length, NoDup_Permutation.
  - apply NoDup_filter, NoDup_elements.
  - constructor; [|apply NoDup_filter, NoDup_elements].
    rewrite list_elem_of_filter, elem_of_elements. tauto.
  - intros y.
    rewrite elem_of_cons, !list_elem_of_filter, !elem_of_elements,
      elem_of_union, elem_of_singleton.
    split.
    + intros [? [->|?]]; auto.
    + intros [->|[? ?]]; auto.
Qed.

Lemma guess_step_frame gs gs1 :
  guess_step gs gs1 →
  GameState.secret gs1 = GameState.secret gs
  ∧ GameState.difficulty gs1 = GameState.difficulty gs
  ∧ GameState.guessed gs ⊆ GameState.guessed gs1
  ∧ (0 <= GameState.lives gs → GameState.lives gs1 <= GameState.lives gs).
Proof.
  destruct 1; simpl; split_and!; try done; try set_solver; lia.
Qed.

Lemma guess_step_wf gs gs1 :
  session_wf gs → derived_state gs = IN_PROGRESS → guess_step gs gs1 →
  session_wf gs1.
Proof.
  intros [Ha Hl Hlen Hlet Hliv Hbud Hfl] Hrun Hstep.
  pose proof (in_progress_lives gs Hrun) as Hpos.
  apply derived_in_progress, orb_false_iff in Hrun as [Hnw Hnl].
  assert (Hsec : ∀ c, c ∈ Py.chars (GameState.secret gs) →
            Py.contains (Py.str1 c) (GameState.secret gs) = true)
    by (intros c Hc; by apply contains_str1).
  unfold wrong_count, status_of in *.
  destruct Hstep as [c Hca Hcu Hnin Hin|c Hca Hcu Hnin Hnotin| |];
    constructor; unfold wrong_count, status_of;
    cbn [GameState.set_guessed GameState.set_lives
      GameState.secret GameState.difficulty GameState.guessed GameState.lives];
    try done.
  - intros x [->%elem_of_singleton|?]%elem_of_union; [|by apply Hlet].
    by exists c.
  - rewrite wrong_length in Hbud |- *.
    rewrite (wrong_length_same _ (GameState.guessed gs)); [done|].
    intros x Hx. rewrite elem_of_union, elem_of_singleton.
    split; [intros [->|?]; [|done] | auto].
    rewrite (Hsec c Hin) in Hx. done.
  - intros [_ Hlost]. rewrite compute_status_lost in Hlost. lia.
  - intros x [->%elem_of_singleton|?]%elem_of_union; [|by apply Hlet].
    by exists c.
  - lia.
  - rewrite wrong_length in Hbud |- *.
    rewrite wrong_length_add; [lia | done |].
    apply not_true_is_false. by rewrite contains_str1.
  - intros [Hwon _]. rewrite compute_status_won in Hwon.
    assert (GameStatus.won (compute_status (GameState.secret gs)
              (GameState.guessed gs) (GameState.lives gs)) = true);
      [|congruence].
    apply compute_status_won. intros c' Hc'.
    specialize (Hwon c' Hc').
    apply elem_of_union in Hwon as [[= ->]%elem_of_singleton|?]; done.
  - intros x [?|(c & -> & Hc)%elem_of_set_of_str]%elem_of_union; [by apply Hlet|].
    exists c. split_and!; [done | |].
    + by apply (all_chars_elem _ (GameState.secret gs)); [apply isalpha_all|].
    + apply negb_true_iff.
      by apply (all_chars_elem (λ c, negb (Py.chr_isupper c)) (GameState.secret gs)).
  - rewrite wrong_length in Hbud |- *.
    rewrite (wrong_length_same _ (GameState.guessed gs)); [done|].
    intros x Hx. rewrite elem_of_union, elem_of_set_of_str.
    split; [intros [?|(c & -> & Hc)]; [done|] | auto].
    rewrite (Hsec c Hc) in Hx. done.
  - intros [_ Hlost]. rewrite compute_status_lost in Hlost. lia.
  - lia.
  - rewrite wrong_length in Hbud |- *. lia.
  - intros [Hwon _]. cbn [compute_status GameStatus.won] in Hwon, Hnw.
    congruence.
Qed.

Lemma fresh_wf (w : World) (d : Difficulty) (gs : GameState.t) :
  _new_game_state w d = inr gs → session_wf gs.
Proof.
  intros Hgs.
  destruct (fresh_session w d gs Hgs) as (Hd & Hl & Hg & Ha & Hlo & Hb & Hrun).
  apply derived_in_progress, orb_false_iff in Hrun as [Hnw Hnl].
  constructor; rewrite ?Hd; try done.
  - rewrite Hg. by intros x ?%not_elem_of_empty.
  - rewrite Hl. by destruct d.
  - unfold wrong_count, status_of. rewrite wrong_length, Hg, elements_empty, Hl.
    simpl. lia.
  - intros [? _]. congruence.
Qed.

Lemma store_wf_insert g k gs :
  store_wf g → session_wf gs → store_wf (<[k := gs]> g).
Proof.
  intros Hg Hgs k' gs'. rewrite lookup_insert. case_decide.
  - by intros [= <-].
  - apply Hg.
Qed.

(** What every route returns is the status of a stored session. *)
Lemma run_op_wf o g :
  store_wf g →
  store_wf (run_op o g).1
  ∧ ∀ r, (run_op o g).2 = inr r →
      ∃ gs, (run_op o g).1 !! GameResponse.game_id r = Some gs
            ∧ r = _response (GameResponse.game_id r) gs.
Proof.
  intros Hg. destruct o as [w req|req|w req]; simpl.
  - destruct (_new_game_state w (NewGameRequest.difficulty req)) as [e|gs] eqn:Hn.
    + by rewrite (api_new_error _ _ _ _ Hn).
    + rewrite (api_new_ok _ _ _ _ Hn). simpl.
      split; [apply store_wf_insert; [done | by eapply fresh_wf]|].
      intros r [= <-]. exists gs. simpl. by rewrite lookup_insert_eq.
  - destruct (api_guess_cases g req)
      as [(e & _ & Heq) | [(gs & Hgs & Heq) | (gs & gs1 & Hgs & Hrun & Heq & _)]].
    + by rewrite Heq.
    + rewrite Heq. simpl. split; [done|]. intros r [= <-]. eauto.
    + destruct (api_guess_step g req)
        as [Hsame | (gs' & gs1' & Hgs' & Hrun' & Hstep & Heq')].
      * rewrite Heq in Hsame |- *. simpl in *. rewrite Hsame.
        split; [done|]. intros r [= <-]. exists gs1. simpl.
        by rewrite <- Hsame, lookup_insert_eq.
      * rewrite Heq'. simpl.
        split; [apply store_wf_insert; [done|]; eapply guess_step_wf; eauto|].
        intros r [= <-]. exists gs1'. simpl. by rewrite lookup_insert_eq.
  - destruct (_new_game_state w
                (restart_difficulty req (g !! RestartRequest.game_id req)))
      as [e|gs] eqn:Hn.
    + by rewrite (api_restart_error _ _ _ _ Hn).
    + rewrite (api_restart_ok _ _ _ _ Hn). simpl.
      split; [apply store_wf_insert; [done | by eapply fresh_wf]|].
      intros r [= <-]. exists gs. simpl. by rewrite lookup_insert_eq.
Qed.

Lemma run_ops_wf ops g :
  store_wf g →
  store_wf (run_ops ops g).1
  ∧ Forall (λ out, ∀ r, out = inr r →
              ∃ gs, session_wf gs ∧ r = _response (GameResponse.game_id r) gs)
           (run_ops ops g).2.
Proof.
  revert g. induction ops as [|o ops IH]; intros g Hg.
  { split; [done | constructor]. }
  cbn [run_ops]. destruct (run_op_wf o g Hg) as [Hg1 Hout].
  destruct (run_op o g) as [g1 out]. simpl in Hg1, Hout.
  destruct (IH g1 Hg1) as [Hg2 Houts].
  destruct (run_ops ops g1) as [g2 outs]. simpl in *.
  split; [done|]. constructor; [|done].
  intros r Hr. destruct (Hout r Hr) as (gs & Hgs & Heq). eauto.
Qed.

Lemma store_wf_empty : store_wf ∅.
Proof. intros k gs. by rewrite lookup_empty. Qed.

(** ** The routes *)

Lemma get_lt s i :
  (i < String.length s)%nat → ∃ c, String.get i s = Some c.
Proof.
  revert i. induction s as [|c s IH]; intros i Hi; simpl in Hi; [lia|].
  destruct i as [|i]; simpl; [eauto|]. apply IH. lia.
Qed.

Lemma get_chars s i c : String.get i s = Some c → c ∈ Py.chars s.
Proof.
  revert i. induction s as [|c' s IH]; intros i; [done|].
  destruct i as [|i]; simpl.
  - intros [= ->]. left.
  - intros H. right. by eapply IH.
Qed.

(** X7. [api_new] either stores the created session under the value of
    [uuid4().hex], leaving every other key as it was, and returns a status
    with that identifier, the lives of the tier, every position masked, no
    wrong letter and neither flag set; or it passes on the exception of the
    creation and leaves the store as it was. *)
Theorem api_new_spec (w : World) (req : NewGameRequest.t) (g : Games) :
  let d := NewGameRequest.difficulty req in
  (∀ gs, _new_game_state w d = inr gs →
     ∃ r, api_new w req g = (<[uuid4_hex w := gs]> g, inr r)
          ∧ (∀ k, k ≠ uuid4_hex w → (api_new w req g).1 !! k = g !! k)
          ∧ GameResponse.game_id r = uuid4_hex w
          ∧ GameResponse.lives r = cfg_lives (tier_cfg d)
          ∧ GameResponse.wrong r = []
          ∧ GameResponse.won r = false
          ∧ GameResponse.lost r = false
          ∧ String.length (GameResponse.masked r)
            = (2 * String.length (GameState.secret gs) - 1)%nat
          ∧ (∀ i, (i < String.length (GameState.secret gs))%nat →
                  String.get (2 * i) (GameResponse.masked r) = Some "_"%char))
  ∧ (∀ e, _new_game_state w d = inl e → api_new w req g = (g, inl e)).
Proof.
  intros d. split; [|intros e He; by apply api_new_error].
  intros gs Hgs. eexists. split; [by apply api_new_ok|].
  pose proof (fresh_session w d gs Hgs) as (Hd & Hl & Hg & Ha & _ & _ & Hrun).
  apply derived_in_progress, orb_false_iff in Hrun as [Hnw Hnl].
  split_and!; try done.
  - intros k Hk. rewrite (api_new_ok _ _ _ _ Hgs). simpl.
    by rewrite lookup_insert_ne.
  - cbn [_response GameResponse.wrong compute_status GameStatus.wrong].
    by rewrite Hg, elements_empty.
  - cbn [_response GameResponse.masked compute_status GameStatus.masked].
    rewrite mask_word_ref. apply masked_ref_length.
  - intros i Hi.
    cbn [_response GameResponse.masked compute_status GameStatus.masked].
    rewrite mask_word_ref.
    destruct (get_lt _ _ Hi) as [c Hc].
    rewrite (masked_ref_letter _ _ _ _ Hc). unfold reveal.
    rewrite Hg. rewrite decide_False; [done | apply not_elem_of_empty].
Qed.

Lemma api_new_spec_witness :
  _new_game_state w0 normal = inr gs0
  ∧ ∃ r, api_new w0 (NewGameRequest.mk normal) g_lost
         = (<[gid0 := gs0]> g_lost, inr r)
         ∧ GameResponse.wrong r = [].
Proof.
  assert (H : _new_game_state w0 normal = inr gs0) by (vm_compute; reflexivity).
  split; [exact H|].
  destruct (proj1 (api_new_spec w0 (NewGameRequest.mk normal) g_lost) gs0 H)
    as (r & Heq & _ & _ & _ & Hw & _).
  exists r. split; [exact Heq | exact Hw].
Defined.

(** X8. A guess never creates or removes a session and touches no session
    but the one it names; of that one it never changes the secret or the
    difficulty, never removes a guessed letter, never raises the lives when
    they are not negative, and never hides a position of the masked string
    that was revealed. *)
Theorem guess_only_advances (g : Games) (req : GuessRequest.t) :
  let g' := (api_guess req g).1 in
  dom g' = dom g
  ∧ (∀ k, k ≠ GuessRequest.game_id req → g' !! k = g !! k)
  ∧ (∀ gs, g !! GuessRequest.game_id req = Some gs →
       ∃ gs', g' !! GuessRequest.game_id req = Some gs'
         ∧ GameState.secret gs' = GameState.secret gs
         ∧ GameState.difficulty gs' = GameState.difficulty gs
         ∧ GameState.guessed gs ⊆ GameState.guessed gs'
         ∧ (0 <= GameState.lives gs → GameState.lives gs' <= GameState.lives gs)
         ∧ (∀ i c, String.get i (GameState.secret gs) = Some c →
              Py.str1 c ∈ GameState.guessed gs →
              String.get (2 * i) (GameStatus.masked (status_of gs')) = Some c)).
Proof.
  intros g'. unfold g'.
  destruct (api_guess_step g req)
    as [Hsame | (gs & gs1 & Hgs & Hrun & Hstep & Heq)].
  - rewrite Hsame. split_and!; [done..|].
    intros gs Hgs. exists gs. split_and!; try done.
    intros i c Hi Hc. unfold status_of.
    cbn [compute_status GameStatus.masked].
    rewrite mask_word_ref, (masked_ref_letter _ _ _ _ Hi). unfold reveal.
    by rewrite decide_True.
  - rewrite Heq. cbn [fst].
    destruct (guess_step_frame gs gs1 Hstep) as (Hs & Hd & Hsub & Hl).
    split_and!.
    + rewrite dom_insert_L.
      apply subseteq_union_1_L, singleton_subseteq_l, elem_of_dom. eauto.
    + intros k Hk. by rewrite lookup_insert_ne.
    + intros gs0' Hgs0. rewrite Hgs in Hgs0. injection Hgs0 as <-.
      exists gs1. rewrite lookup_insert_eq. split_and!; try done.
      intros i c Hi Hc. unfold status_of.
      cbn [compute_status GameStatus.masked].
      rewrite mask_word_ref, Hs, (masked_ref_letter _ _ _ _ Hi). unfold reveal.
      rewrite decide_True; [done | by apply Hsub].
Qed.

Lemma guess_only_advances_witness :
  g_last !! gid0 = Some gs_last
  ∧ ∃ gs', (api_guess (GuessRequest.mk gid0 "q") g_last).1 !! gid0 = Some gs'
           ∧ GameState.guessed gs_last ⊆ GameState.guessed gs'.
Proof.
  assert (H : g_last !! GuessRequest.game_id (GuessRequest.mk gid0 "q")
              = Some gs_last) by reflexivity.
  split; [exact H|].
  destruct (proj2 (proj2 (guess_only_advances g_last (GuessRequest.mk gid0 "q")))
              gs_last H) as (gs' & Hg & _ & _ & Hsub & _).
  exists gs'. split; [exact Hg | exact Hsub].
Defined.

(** X9. In every store reached from the empty one by requests to the
    routes, every session has an alphabetic lowercase secret of a length
    within the bounds of its tier, and its guessed set holds only
    one-character strings, each a letter in lowercase; so the wrong list of
    its status is the strictly ascending list of the guessed letters that
    are not in the secret. *)
Theorem reachable_sessions_shape (ops : list Op) (k : string) (gs : GameState.t) :
  (run_ops ops ∅).1 !! k = Some gs →
  Py.isalpha (GameState.secret gs) = true
  ∧ is_lowercase (GameState.secret gs) = true
  ∧ min_len (tier_cfg (GameState.difficulty gs))
    <= Py.len (GameState.secret gs)
    <= max_len (tier_cfg (GameState.difficulty gs))
  ∧ (∀ x, x ∈ GameState.guessed gs → is_letter x)
  ∧ letters_only (GameState.guessed gs)
  ∧ is_wrong_list (GameState.secret gs) (GameState.guessed gs)
      (GameStatus.wrong (status_of gs)).
Proof.
  intros Hk.
  destruct (proj1 (run_ops_wf ops ∅ store_wf_empty) k gs Hk)
    as [Ha Hl Hlen Hlet _ _ _].
  assert (Hlo : letters_only (GameState.guessed gs)).
  { intros x Hx. destruct (Hlet x Hx) as (c & -> & _). by exists c. }
  split_and!; try done; try apply Hlen.
  by apply compute_status_wrong.
Qed.

Lemma reachable_sessions_shape_witness :
  (run_ops ops0 ∅).1 !! gid0 = Some (GameState.mk normal "orchard" 6 {[ "z" ]})
  ∧ letters_only (GameState.guessed (GameState.mk normal "orchard" 6 {[ "z" ]})).
Proof.
  assert (H : (run_ops ops0 ∅).1 !! gid0
              = Some (GameState.mk normal "orchard" 6 {[ "z" ]}))
    by (vm_compute; reflexivity).
  split; [exact H|].
  exact (proj1 (proj2 (proj2 (proj2 (proj2
           (reachable_sessions_shape ops0 gid0 _ H)))))).
Defined.

(** X10. In every store reached from the empty one, the lives of a session
    and the number of its wrong letters together never exceed the starting
    lives of its tier: the lives stay between 0 and the starting lives, and
    the wrong list never has more entries than the tier has lives (at most
    ten). *)
Theorem reachable_wrong_budget (ops : list Op) (k : string) (gs : GameState.t) :
  (run_ops ops ∅).1 !! k = Some gs →
  let start := cfg_lives (tier_cfg (GameState.difficulty gs)) in
  GameState.lives gs + wrong_count gs <= start
  ∧ 0 <= GameState.lives gs <= start
  ∧ wrong_count gs <= start
  ∧ (length (GameStatus.wrong (status_of gs)) <= 10)%nat.
Proof.
  intros Hk start.
  destruct (proj1 (run_ops_wf ops ∅ store_wf_empty) k gs Hk)
    as [_ _ _ _ Hliv Hbud _].
  fold start in Hbud.
  assert (0 <= wrong_count gs) by (unfold wrong_count; lia).
  assert (start <= 10) by (unfold start; destruct (GameState.difficulty gs); simpl; lia).
  split_and!; try lia.
  unfold wrong_count in *. lia.
Qed.

Lemma reachable_wrong_budget_witness :
  (run_ops ops0 ∅).1 !! gid0 = Some (GameState.mk normal "orchard" 6 {[ "z" ]})
  ∧ 6 + wrong_count (GameState.mk normal "orchard" 6 {[ "z" ]}) <= 7.
Proof.
  assert (H : (run_ops ops0 ∅).1 !! gid0
              = Some (GameState.mk normal "orchard" 6 {[ "z" ]}))
    by (vm_compute; reflexivity).
  split; [exact H|].
  exact (proj1 (reachable_wrong_budget ops0 gid0 _ H)).
Defined.

(** X11. Although [compute_status] can set both flags, no session reached
    from the empty store through the routes is won and lost at once, and
    no status returned on the way shows both flags. *)
Theorem reachable_never_won_and_lost (ops : list Op) :
  (∀ k gs, (run_ops ops ∅).1 !! k = Some gs →
     ¬ (GameStatus.won (status_of gs) = true
        ∧ GameStatus.lost (status_of gs) = true))
  ∧ Forall (λ out, ∀ r, out = inr r →
              ¬ (GameResponse.won r = true ∧ GameResponse.lost r = true))
           (run_ops ops ∅).2.
Proof.
  destruct (run_ops_wf ops ∅ store_wf_empty) as [Hst Hout]. split.
  - intros k gs Hk. apply (Hst k gs Hk).
  - eapply Forall_impl; [exact Hout|]. simpl.
    intros out H r Hr. destruct (H r Hr) as (gs & Hwf & ->).
    apply Hwf.
Qed.

Lemma reachable_never_won_and_lost_witness :
  (run_ops ops0 ∅).1 !! gid0 = Some (GameState.mk normal "orchard" 6 {[ "z" ]})
  ∧ ¬ (GameStatus.won (status_of (GameState.mk normal "orchard" 6 {[ "z" ]})) = true
       ∧ GameStatus.lost (status_of (GameState.mk normal "orchard" 6 {[ "z" ]})) = true).
Proof.
  assert (H : (run_ops ops0 ∅).1 !! gid0
              = Some (GameState.mk normal "orchard" 6 {[ "z" ]}))
    by (vm_compute; reflexivity).
  split; [exact H|].
  exact (proj1 (reachable_never_won_and_lost ops0) gid0 _ H).
Defined.

(** ** The masked string without its separators *)

Lemma replace_keep old new c s :
  c ≠ old → Py.replace old new (String c s) = String c (Py.replace old new s).
Proof. intros Hne. cbn [Py.replace]. by rewrite decide_False. Qed.

Lemma replace_drop old s :
  Py.replace old "" (String old s) = Py.replace old "" s.
Proof. cbn [Py.replace]. by rewrite decide_True. Qed.

Lemma reveal_not_space G c : c ≠ " "%char → reveal G c ≠ " "%char.
Proof. intros Hc. unfold reveal. by case_decide. Qed.

Lemma masked_without_spaces secret G :
  " "%char ∉ Py.chars secret →
  Py.replace " " "" (masked_ref secret G)
  = String.string_of_list_ascii (reveal G <$> Py.chars secret).
Proof.
  induction secret as [|c rest IH]; [done|]. intros Hsp.
  apply not_elem_of_cons in Hsp as [Hc Hrest].
  assert (Hr : reveal G c ≠ " "%char) by (apply reveal_not_space; congruence).
  destruct rest as [|c' rest'].
  - simpl. by rewrite decide_False.
  - change (masked_ref (String c (String c' rest')) G)
      with (String (reveal G c) (String " " (masked_ref (String c' rest') G))).
    rewrite (replace_keep _ _ _ _ Hr), replace_drop, (IH Hrest). done.
Qed.

(** X12. For a secret without a space, removing the spaces from the masked
    string, as the self-checks of utils.py do with [replace], leaves one
    character per position of the secret: the character itself where it is
    guessed and the placeholder elsewhere; and when every letter of the
    secret is guessed what is left is the secret. *)
Theorem masked_replace_spaces (secret : string) (G : gset string) :
  " "%char ∉ Py.chars secret →
  let shown := Py.replace " " "" (mask_word secret G) in
  shown = String.string_of_list_ascii (reveal G <$> Py.chars secret)
  ∧ String.length shown = String.length secret
  ∧ (∀ i c, String.get i secret = Some c →
            String.get i shown = Some (reveal G c))
  ∧ ((∀ c, c ∈ Py.chars secret → Py.str1 c ∈ G) → shown = secret).
Proof.
  intros Hsp shown.
  assert (Hshown : shown = String.string_of_list_ascii (reveal G <$> Py.chars secret)).
  { unfold shown. rewrite mask_word_ref. by apply masked_without_spaces. }
  rewrite Hshown. clear Hsp shown Hshown. split_and!.
  - done.
  - induction secret as [|c s IH]; [done|]. simpl. f_equal. exact IH.
  - induction secret as [|c0 s IH]; intros i c Hi; [done|].
    destruct i as [|i]; simpl in *; [congruence | by apply IH].
  - induction secret as [|c s IH]; intros Hall; [done|]. simpl.
    unfold reveal at 1. rewrite decide_True by (apply Hall; left).
    f_equal. apply IH. intros c' Hc'. apply Hall. by right.
Qed.

Lemma masked_replace_spaces_witness :
  (" "%char ∉ Py.chars "banana")
  ∧ Py.replace " " "" (mask_word "banana" {[ "b"; "n" ]})
    = String.string_of_list_ascii (reveal {[ "b"; "n" ]} <$> Py.chars "banana").
Proof.
  assert (H : " "%char ∉ Py.chars "banana").
  { apply (bool_decide_unpack _). vm_compute. exact I. }
  split; [exact H|].
  exact (proj1 (masked_replace_spaces "banana" {[ "b"; "n" ]} H)).
Defined.

(** ** What the routes return *)

(** X13. Whatever route answers with a status, that status is the status of
    the session stored, after the call, under the identifier the answer
    carries: the answer and the store never disagree. *)
Theorem response_is_stored_status (o : Op) (g : Games) (r : GameResponse.t) :
  (run_op o g).2 = inr r →
  ∃ gs, (run_op o g).1 !! GameResponse.game_id r = Some gs
        ∧ r = _response (GameResponse.game_id r) gs
        ∧ response_status r = status_of gs.
Proof.
  intros Hr.
  assert (H : ∃ gs, (run_op o g).1 !! GameResponse.game_id r = Some gs
                    ∧ r = _response (GameResponse.game_id r) gs).
  { destruct o as [w req|req|w req]; simpl in *.
    - destruct (_new_game_state w (NewGameRequest.difficulty req)) as [e|gs] eqn:Hn.
      + by rewrite (api_new_error _ _ _ _ Hn) in Hr.
      + rewrite (api_new_ok _ _ _ _ Hn) in Hr |- *. simpl in *.
        injection Hr as <-. exists gs. simpl. by rewrite lookup_insert_eq.
    - destruct (api_guess_cases g req)
        as [(e & _ & Heq) | [(gs & Hgs & Heq) | (gs & gs1 & _ & _ & Heq & _)]];
        rewrite Heq in Hr |- *; simpl in *; [done| |];
        injection Hr as <-; simpl.
      + eauto.
      + exists gs1. by rewrite lookup_insert_eq.
    - destruct (_new_game_state w
                  (restart_difficulty req (g !! RestartRequest.game_id req)))
        as [e|gs] eqn:Hn.
      + by rewrite (api_restart_error _ _ _ _ Hn) in Hr.
      + rewrite (api_restart_ok _ _ _ _ Hn) in Hr |- *. simpl in *.
        injection Hr as <-. exists gs. simpl. by rewrite lookup_insert_eq. }
  destruct H as (gs & Hgs & Heq). exists gs. split_and!; [done..|].
  by rewrite Heq.
Qed.

Lemma response_is_stored_status_witness :
  ∃ gs, (run_op (OpGuess (GuessRequest.mk gid0 "q")) g_last).1 !! gid0 = Some gs
        ∧ GameState.lives gs = 0.
Proof.
  destruct (response_is_stored_status (OpGuess (GuessRequest.mk gid0 "q")) g_last
              (_response gid0 (GameState.mk normal "orchard" 0 {[ "o"; "z"; "q" ]})))
    as (gs & Hgs & Heq & _).
  - vm_compute. reflexivity.
  - exists gs. split; [exact Hgs|].
    change (GameState.lives gs) with (GameResponse.lives (_response gid0 gs)).
    simpl in Heq. rewrite <- Heq. reflexivity.
Defined.

(** ** Letter guesses *)

Lemma wrong_after_hit secret (G : gset string) c lives lives' :
  c ∈ Py.chars secret →
  GameStatus.wrong (compute_status secret ({[ Py.str1 c ]} ∪ G) lives)
  = GameStatus.wrong (compute_status secret G lives').
Proof.
  intros Hc. cbn [compute_status GameStatus.wrong].
  apply strict_sorted_ext.
  - apply sorted_strict, NoDup_filter, NoDup_elements.
  - apply sorted_strict, NoDup_filter, NoDup_elements.
  - intros x. rewrite !elem_of_sorted, !list_elem_of_filter, !elem_of_elements,
      elem_of_union, elem_of_singleton.
    split; [|tauto]. intros [Hx [->|?]]; [|done].
    apply contains_str1 in Hc. congruence.
Qed.

Lemma elem_of_wrong secret (G : gset string) lives x :
  x ∈ GameStatus.wrong (compute_status secret G lives)
  ↔ Py.contains x secret = false ∧ x ∈ G.
Proof.
  cbn [compute_status GameStatus.wrong].
  by rewrite elem_of_sorted, list_elem_of_filter, elem_of_elements.
Qed.

Lemma miss_not_won secret (G : gset string) c lives lives' :
  c ∉ Py.chars secret →
  GameStatus.won (compute_status secret G lives) = false →
  GameStatus.won (compute_status secret ({[ Py.str1 c ]} ∪ G) lives') = false.
Proof.
  intros Hc Hnw. apply not_true_is_false. intros Hw.
  rewrite compute_status_won in Hw.
  assert (GameStatus.won (compute_status secret G lives) = true); [|congruence].
  apply compute_status_won. intros c' Hc'. specialize (Hw c' Hc').
  apply elem_of_union in Hw as [[= ->]%elem_of_singleton|?]; done.
Qed.

(** X14. On a session in progress a letter that was not guessed before is
    added to the guessed set.  When it occurs in the secret the lives and
    the wrong list stay as they were, every position holding it is revealed
    and the game is not lost; when it does not, one life is taken, the
    letter enters the wrong list, the masked string stays as it was, the
    game is not won, and it is lost exactly when that was the last life. *)
Theorem new_letter_guess (g : Games) (req : GuessRequest.t) (gs : GameState.t)
    (c : ascii) :
  let gid := GuessRequest.game_id req in
  g !! gid = Some gs →
  derived_state gs = IN_PROGRESS →
  Py.lower (Py.strip (GuessRequest.letter req)) = Py.str1 c →
  Py.chr_isalpha c = true →
  Py.str1 c ∉ GameState.guessed gs →
  ∃ gs1 r,
    api_guess req g = (<[gid := gs1]> g, inr r)
    ∧ r = _response gid gs1
    ∧ GameState.guessed gs1 = {[ Py.str1 c ]} ∪ GameState.guessed gs
    ∧ (c ∈ Py.chars (GameState.secret gs) →
         GameResponse.lives r = GameState.lives gs
         ∧ GameResponse.wrong r = GameStatus.wrong (status_of gs)
         ∧ GameResponse.lost r = false
         ∧ ∀ i, String.get i (GameState.secret gs) = Some c →
                String.get (2 * i) (GameResponse.masked r) = Some c)
    ∧ (c ∉ Py.chars (GameState.secret gs) →
         GameResponse.lives r = GameState.lives gs - 1
         ∧ Py.str1 c ∈ GameResponse.wrong r
         ∧ (∀ x, x ∈ GameResponse.wrong r ↔
                 x = Py.str1 c ∨ x ∈ GameStatus.wrong (status_of gs))
         ∧ GameResponse.masked r = GameStatus.masked (status_of gs)
         ∧ GameResponse.won r = false
         ∧ (GameResponse.lost r = true ↔ GameState.lives gs = 1)).
Proof.
  intros gid Hgs Hrun Hraw Ha Hnin.
  pose proof (in_progress_lives gs Hrun) as Hpos.
  pose proof (proj1 (derived_in_progress gs) Hrun) as Hfl.
  apply orb_false_iff in Hfl as [Hnw Hnl]. unfold status_of in Hnw, Hnl.
  destruct (decide (c ∈ Py.chars (GameState.secret gs))) as [Hs|Hs].
  - do 2 eexists.
    split; [exact (api_guess_letter_hit g req gs _ Hgs Hraw Hrun c eq_refl Ha Hnin Hs)|].
    split_and!; [done..| |done].
    intros _. unfold _response, status_of.
    cbn [GameResponse.lives GameResponse.wrong GameResponse.lost
         GameResponse.masked GameState.set_guessed GameState.secret
         GameState.guessed GameState.lives].
    split_and!.
    + done.
    + by apply wrong_after_hit.
    + cbn [compute_status GameStatus.lost]. apply Z.leb_gt. lia.
    + intros i Hi. cbn [compute_status GameStatus.masked].
      rewrite mask_word_ref, (masked_ref_letter _ _ _ _ Hi). unfold reveal.
      rewrite decide_True; [done|]. apply elem_of_union_l. by apply elem_of_singleton.
  - do 2 eexists.
    split; [exact (api_guess_letter_miss g req gs _ Hgs Hraw Hrun c eq_refl Ha Hnin Hs)|].
    split_and!; [done..|done|].
    intros _. unfold _response, status_of.
    cbn [GameResponse.lives GameResponse.wrong GameResponse.lost GameResponse.won
         GameResponse.masked GameState.set_guessed GameState.set_lives
         GameState.secret GameState.guessed GameState.lives].
    assert (Hcont : Py.contains (Py.str1 c) (GameState.secret gs) = false).
    { apply not_true_is_false. by rewrite contains_str1. }
    split_and!.
    + done.
    + apply elem_of_wrong. split; [done|].
      apply elem_of_union_l. by apply elem_of_singleton.
    + intros x. rewrite !elem_of_wrong, elem_of_union, elem_of_singleton.
      split; [tauto|]. intros [->|?]; tauto.
    + cbn [compute_status GameStatus.masked]. rewrite !mask_word_ref.
      generalize (GameState.secret gs) Hs. clear.
      induction s as [|c0 rest IH]; intros Hs; [done|].
      apply not_elem_of_cons in Hs as [Hne Hrest].
      assert (Hr : reveal ({[Py.str1 c]} ∪ GameState.guessed gs) c0
                   = reveal (GameState.guessed gs) c0).
      { unfold reveal.
        destruct (decide (Py.str1 c0 ∈ GameState.guessed gs)) as [Hin|Hnin].
        - rewrite decide_True; [done | by apply elem_of_union_r].
        - rewrite decide_False; [done|].
          intros [[= ->]%elem_of_singleton|?]%elem_of_union; done. }
      destruct rest as [|c' rest']; simpl; [by rewrite Hr|].
      rewrite Hr. do 2 f_equal. by apply IH.
    + by apply (miss_not_won _ _ _ (GameState.lives gs)).
    + cbn [compute_status GameStatus.lost]. rewrite Z.leb_le. lia.
Qed.

Lemma new_letter_guess_witness :
  g_last !! gid0 = Some gs_last
  ∧ ∃ gs1 r, api_guess (GuessRequest.mk gid0 " R ") g_last
             = (<[gid0 := gs1]> g_last, inr r)
             ∧ GameState.guessed gs1 = {[ "r" ]} ∪ GameState.guessed gs_last.
Proof.
  assert (H : g_last !! GuessRequest.game_id (GuessRequest.mk gid0 " R ")
              = Some gs_last) by reflexivity.
  split; [exact H|].
  destruct (new_letter_guess g_last (GuessRequest.mk gid0 " R ") gs_last "r" H)
    as (gs1 & r & Heq & _ & Hg & _).
  - vm_compute. reflexivity.
  - vm_compute. reflexivity.
  - vm_compute. reflexivity.
  - apply (bool_decide_unpack _). vm_compute. exact I.
  - exists gs1, r. split; [exact Heq | exact Hg].
Defined.

(** ** Runs of wrong letters, and a guess after a restart *)

Lemma run_ops_cons o ops g :
  (run_ops (o :: ops) g).1 = (run_ops ops (run_op o g).1).1.
Proof.
  cbn [run_ops]. destruct (run_op o g) as [g1 out]. cbn [fst].
  by destruct (run_ops ops g1).
Qed.

Lemma normalize_letter c :
  Py.chr_isalpha c = true → Py.chr_isupper c = false →
  Py.lower (Py.strip (Py.str1 c)) = Py.str1 c.
Proof.
  intros Ha Hu. rewrite strip_alpha by (simpl; by rewrite Ha).
  simpl. by rewrite chr_lower_fixed.
Qed.

Lemma in_progress_intro gs :
  GameStatus.won (status_of gs) = false → 0 < GameState.lives gs →
  derived_state gs = IN_PROGRESS.
Proof.
  intros Hw Hl. apply derived_in_progress. rewrite Hw. simpl.
  unfold status_of. cbn [compute_status GameStatus.lost]. apply Z.leb_gt. lia.
Qed.

Lemma lost_intro gs :
  GameStatus.won (status_of gs) = false → GameState.lives gs <= 0 →
  derived_state gs = LOST.
Proof.
  intros Hw Hl. unfold derived_state. fold (status_of gs). rewrite Hw.
  unfold status_of. cbn [compute_status GameStatus.lost].
  by rewrite (proj2 (Z.leb_le _ _) Hl).
Qed.

Lemma wrong_letters_run (cs : list ascii) (g : Games) (gid : string)
    (gs : GameState.t) :
  g !! gid = Some gs →
  GameStatus.won (status_of gs) = false →
  NoDup cs →
  (∀ c, c ∈ cs →
     Py.chr_isalpha c = true ∧ Py.chr_isupper c = false
     ∧ (Py.str1 c ∉ GameState.guessed gs)
     ∧ (c ∉ Py.chars (GameState.secret gs))) →
  Z.of_nat (length cs) <= GameState.lives gs →
  let g' := (run_ops (guess_letters gid cs) g).1 in
  let final :=
    GameState.mk (GameState.difficulty gs) (GameState.secret gs)
      (GameState.lives gs - Z.of_nat (length cs))
      (letter_set cs ∪ GameState.guessed gs) in
  g' !! gid = Some final
  ∧ (∀ k, k ≠ gid → g' !! k = g !! k)
  ∧ GameStatus.won (status_of final) = false.
Proof.
  revert g gs. induction cs as [|c cs IH]; intros g gs Hgs Hnw Hnd Hall Hlen.
  - cbn zeta. unfold guess_letters, letter_set. simpl.
    rewrite Z.sub_0_r, (left_id_L ∅ (∪)). destruct gs. simpl in *.
    split_and!; done.
  - apply NoDup_cons in Hnd as [Hc Hnd].
    destruct (Hall c (list_elem_of_here _ _)) as (Ha & Hu & Hnin & Hs).
    rewrite length_cons, Nat2Z.inj_succ in Hlen.
    assert (Hrun : derived_state gs = IN_PROGRESS)
      by (apply in_progress_intro; [done | lia]).
    set (gs1 := GameState.set_lives (GameState.lives gs - 1)
                  (GameState.set_guessed
                     ({[ Py.str1 c ]} ∪ GameState.guessed gs) gs)).
    assert (Hstep : api_guess (GuessRequest.mk gid (Py.str1 c)) g
                    = (<[gid := gs1]> g, inr (_response gid gs1))).
    { exact (api_guess_letter_miss g (GuessRequest.mk gid (Py.str1 c)) gs _
               Hgs (normalize_letter c Ha Hu) Hrun c eq_refl Ha Hnin Hs). }
    assert (Hnw1 : GameStatus.won (status_of gs1) = false).
    { unfold status_of, gs1. simpl.
      by apply (miss_not_won _ _ _ (GameState.lives gs) (GameState.lives gs - 1)). }
    cbn zeta. unfold guess_letters. rewrite fmap_cons, run_ops_cons.
    fold (guess_letters gid cs). cbn [run_op]. rewrite Hstep. cbn [fst].
    destruct (IH (<[gid := gs1]> g) gs1) as (Hfin & Hfr & Hwon).
    + by rewrite lookup_insert_eq.
    + done.
    + done.
    + intros c' Hc'.
      destruct (Hall c' (list_elem_of_further _ _ _ Hc')) as (? & ? & ? & ?).
      split_and!; try done. unfold gs1. simpl.
      intros [[= ->]%elem_of_singleton|?]%elem_of_union; done.
    + unfold gs1. simpl. lia.
    + assert (Heq : GameState.mk (GameState.difficulty gs1) (GameState.secret gs1)
                      (GameState.lives gs1 - Z.of_nat (length cs))
                      (letter_set cs ∪ GameState.guessed gs1)
                    = GameState.mk (GameState.difficulty gs) (GameState.secret gs)
                        (GameState.lives gs - Z.of_nat (length (c :: cs)))
                        (letter_set (c :: cs) ∪ GameState.guessed gs)).
      { unfold gs1, letter_set. simpl. f_equal; [lia|].
        rewrite (assoc_L (∪)). f_equal. apply (comm_L (∪)). }
      rewrite Heq in Hfin, Hwon. split_and!.
      * done.
      * intros k Hk. rewrite (Hfr k Hk). by rewrite lookup_insert_ne.
      * done.
Qed.

(** X15. Wrong letters add up: on a session that is not won, guessing one
    after the other [n] distinct letters that are neither guessed nor in the
    secret, with [n] at most the lives left, leaves the secret as it is,
    adds exactly these letters to the guessed set and takes exactly [n]
    lives; the session is then lost when no life is left and in progress
    otherwise, and no other session has changed. *)
Theorem wrong_letters_add_up (cs : list ascii) (g : Games) (gid : string)
    (gs : GameState.t) :
  g !! gid = Some gs →
  GameStatus.won (status_of gs) = false →
  NoDup cs →
  (∀ c, c ∈ cs →
     Py.chr_isalpha c = true ∧ Py.chr_isupper c = false
     ∧ (Py.str1 c ∉ GameState.guessed gs)
     ∧ (c ∉ Py.chars (GameState.secret gs))) →
  Z.of_nat (length cs) <= GameState.lives gs →
  let g' := (run_ops (guess_letters gid cs) g).1 in
  let final :=
    GameState.mk (GameState.difficulty gs) (GameState.secret gs)
      (GameState.lives gs - Z.of_nat (length cs))
      (letter_set cs ∪ GameState.guessed gs) in
  g' !! gid = Some final
  ∧ (∀ k, k ≠ gid → g' !! k = g !! k)
  ∧ GameStatus.won (status_of final) = false
  ∧ (Z.of_nat (length cs) = GameState.lives gs → derived_state final = LOST)
  ∧ (Z.of_nat (length cs) < GameState.lives gs →
     derived_state final = IN_PROGRESS).
Proof.
  intros Hgs Hnw Hnd Hall Hlen g' final.
  destruct (wrong_letters_run cs g gid gs Hgs Hnw Hnd Hall Hlen)
    as (Hfin & Hfr & Hwon).
  fold g' final in Hfin, Hfr, Hwon. split_and!; try done.
  - intros Heq. apply lost_intro; [done|]. unfold final. simpl. lia.
  - intros Hlt. apply in_progress_intro; [done|]. unfold final. simpl. lia.
Qed.

Lemma wrong_letters_add_up_witness :
  g0 !! gid0 = Some gs0
  ∧ (run_ops (guess_letters gid0 ["x"; "y"; "z"]%char) g0).1 !! gid0
    = Some (GameState.mk normal "orchard" (7 - 3)
              (letter_set ["x"; "y"; "z"]%char ∪ ∅)).
Proof.
  assert (H : g0 !! gid0 = Some gs0) by reflexivity.
  split; [exact H|].
  refine (proj1 (wrong_letters_add_up ["x"; "y"; "z"]%char g0 gid0 gs0 H _ _ _ _)).
  - vm_compute. reflexivity.
  - apply (bool_decide_unpack _). vm_compute. exact I.
  - intros c Hc.
    assert (Hcase : c = "x"%char ∨ c = "y"%char ∨ c = "z"%char).
    { apply elem_of_cons in Hc as [->|Hc]; [by left|].
      apply elem_of_cons in Hc as [->|Hc]; [by right; left|].
      apply elem_of_cons in Hc as [->|Hc]; [by right; right|].
      by apply elem_of_nil in Hc. }
    destruct Hcase as [-> | [-> | ->]];
      (split_and!; [reflexivity | reflexivity
                    | apply (bool_decide_unpack _); vm_compute; exact I
                    | apply (bool_decide_unpack _); vm_compute; exact I]).
  - vm_compute. discriminate.
Defined.

(** X16. A restart revives the session: whatever the session stored under
    the identifier was (won, lost or in progress), after a successful
    restart a first letter guess on that identifier is applied to the fresh
    session; its guessed set is then that one letter and its lives are the
    starting lives of the tier, less one when the letter is not in the new
    secret. *)
Theorem restart_then_guess (w : World) (req : RestartRequest.t) (g : Games)
    (prev gs : GameState.t) (c : ascii) :
  let gid := RestartRequest.game_id req in
  let d := restart_difficulty req (Some prev) in
  g !! gid = Some prev →
  _new_game_state w d = inr gs →
  Py.chr_isalpha c = true →
  Py.chr_isupper c = false →
  let g1 := (api_restart w req g).1 in
  g1 = <[gid := gs]> g
  ∧ ∃ gs1,
      api_guess (GuessRequest.mk gid (Py.str1 c)) g1
      = (<[gid := gs1]> g, inr (_response gid gs1))
      ∧ GameState.secret gs1 = GameState.secret gs
      ∧ GameState.difficulty gs1 = d
      ∧ GameState.guessed gs1 = {[ Py.str1 c ]}
      ∧ GameState.lives gs1
        = cfg_lives (tier_cfg d)
          - (if decide (c ∈ Py.chars (GameState.secret gs)) then 0 else 1).
Proof.
  intros gid d Hprev Hnew Ha Hu g1.
  assert (Hg1 : g1 = <[gid := gs]> g).
  { unfold g1. pose proof (api_restart_ok w req g gs) as H. cbn zeta in H.
    fold gid in H. rewrite Hprev in H. by rewrite (H Hnew). }
  split; [done|]. rewrite Hg1.
  destruct (fresh_session w d gs Hnew) as (Hd & Hl & Hg & _ & _ & _ & Hrun).
  assert (Hgs : <[gid := gs]> g !! GuessRequest.game_id
                  (GuessRequest.mk gid (Py.str1 c)) = Some gs)
    by apply lookup_insert_eq.
  assert (Hnin : Py.str1 c ∉ GameState.guessed gs)
    by (rewrite Hg; apply not_elem_of_empty).
  destruct (decide (c ∈ Py.chars (GameState.secret gs))) as [Hs|Hs].
  - eexists. split.
    + rewrite (api_guess_letter_hit _ _ gs _ Hgs (normalize_letter c Ha Hu)
                 Hrun c eq_refl Ha Hnin Hs).
      cbn [GuessRequest.game_id]. by rewrite insert_insert_eq.
    + simpl. rewrite Hg, Hl, (right_id_L ∅ (∪)). split_and!; [done..|lia].
  - eexists. split.
    + rewrite (api_guess_letter_miss _ _ gs _ Hgs (normalize_letter c Ha Hu)
                 Hrun c eq_refl Ha Hnin Hs).
      cbn [GuessRequest.game_id]. by rewrite insert_insert_eq.
    + simpl. rewrite Hg, Hl, (right_id_L ∅ (∪)). split_and!; done.
Qed.

Lemma restart_then_guess_witness :
  g_lost !! gid0 = Some gs_lost
  ∧ ∃ gs1, api_guess (GuessRequest.mk gid0 "o")
             (api_restart w0 (RestartRequest.mk gid0 None) g_lost).1
           = (<[gid0 := gs1]> g_lost, inr (_response gid0 gs1))
           ∧ GameState.guessed gs1 = {[ "o" ]}.
Proof.
  assert (H : g_lost !! gid0 = Some gs_lost) by reflexivity.
  split; [exact H|].
  destruct (restart_then_guess w0 (RestartRequest.mk gid0 None) g_lost
              gs_lost gs0 "o" H) as (_ & gs1 & Heq & _ & _ & Hg & _).
  - vm_compute. reflexivity.
  - reflexivity.
  - reflexivity.
  - exists gs1. split; [exact Heq | exact Hg].
Defined.

(** X17. On a session in progress a word guess that equals the secret
    reveals every position of the masked string, keeps the wrong list and
    the lives as they were, and returns a status that is won and not
    lost. *)
Theorem correct_word_reveals (g : Games) (req : GuessRequest.t)
    (gs : GameState.t) :
  let raw := Py.lower (Py.strip (GuessRequest.letter req)) in
  let gid := GuessRequest.game_id req in
  g !! gid = Some gs →
  derived_state gs = IN_PROGRESS →
  2 <= Py.len raw →
  Py.isalpha raw = true →
  raw = GameState.secret gs →
  ∃ r, (api_guess req g).2 = inr r
       ∧ (∀ i c, String.get i (GameState.secret gs) = Some c →
                 String.get (2 * i) (GameResponse.masked r) = Some c)
       ∧ Py.replace " " "" (GameResponse.masked r) = GameState.secret gs
       ∧ GameResponse.wrong r = GameStatus.wrong (status_of gs)
       ∧ GameResponse.lives r = GameState.lives gs
       ∧ GameResponse.won r = true
       ∧ GameResponse.lost r = false.
Proof.
  intros raw gid Hgs Hrun Hlen Ha Heq.
  rewrite (api_guess_word_hit g req gs raw Hgs eq_refl Hrun Hlen Ha Heq).
  eexists. split; [done|].
  pose proof (in_progress_lives gs Hrun) as Hpos.
  unfold _response, status_of.
  cbn [GameResponse.lives GameResponse.wrong GameResponse.lost GameResponse.won
       GameResponse.masked GameState.set_guessed GameState.secret
       GameState.guessed GameState.lives].
  set (G' := GameState.guessed gs ∪ Py.set_of_str (GameState.secret gs)).
  assert (Hall : ∀ c, c ∈ Py.chars (GameState.secret gs) → Py.str1 c ∈ G').
  { intros c Hc. apply elem_of_union_r, elem_of_set_of_str. eauto. }
  assert (Hrev : ∀ c, c ∈ Py.chars (GameState.secret gs) → reveal G' c = c).
  { intros c Hc. unfold reveal. by rewrite decide_True by by apply Hall. }
  split_and!.
  - intros i c Hi. cbn [compute_status GameStatus.masked].
    rewrite mask_word_ref, (masked_ref_letter _ _ _ _ Hi).
    f_equal. apply Hrev. by eapply get_chars.
  - cbn [compute_status GameStatus.masked]. rewrite mask_word_ref.
    assert (Hsp : " "%char ∉ Py.chars (GameState.secret gs)).
    { intros Hin. rewrite <- Heq in Hin. apply isalpha_all in Ha.
      by pose proof (all_chars_elem _ _ _ Ha Hin). }
    rewrite (masked_without_spaces _ _ Hsp).
    generalize (GameState.secret gs) Hrev. clear.
    induction s as [|c s IH]; intros Hrev; [done|]. simpl.
    rewrite Hrev by left. f_equal. apply IH. intros c' Hc'. apply Hrev. by right.
  - cbn [compute_status GameStatus.wrong]. apply strict_sorted_ext.
    + apply sorted_strict, NoDup_filter, NoDup_elements.
    + apply sorted_strict, NoDup_filter, NoDup_elements.
    + intros x. rewrite !elem_of_sorted, !list_elem_of_filter, !elem_of_elements.
      unfold G'. rewrite elem_of_union, elem_of_set_of_str.
      split; [|tauto]. intros [Hx [?|(c & -> & Hc)]]; [done|].
      apply contains_str1 in Hc. congruence.
  - done.
  - by apply compute_status_won.
  - cbn [compute_status GameStatus.lost]. apply Z.leb_gt. lia.
Qed.

Lemma correct_word_reveals_witness :
  g_last !! gid0 = Some gs_last
  ∧ ∃ r, (api_guess (GuessRequest.mk gid0 " Orchard ") g_last).2 = inr r
         ∧ GameResponse.won r = true.
Proof.
  assert (H : g_last !! GuessRequest.game_id (GuessRequest.mk gid0 " Orchard ")
              = Some gs_last) by reflexivity.
  split; [exact H|].
  destruct (correct_word_reveals g_last (GuessRequest.mk gid0 " Orchard ")
              gs_last H) as (r & Hr & _ & _ & _ & _ & Hw & _).
  - vm_compute. reflexivity.
  - vm_compute. discriminate.
  - vm_compute. reflexivity.
  - vm_compute. reflexivity.
  - exists r. split; [exact Hr | exact Hw].
Defined.
